(** * jsonrpcclient.request: building JSON-RPC 2.0 requests and notifications

    A shallow embedding of [jsonrpcclient/request.py]: the [Notification]
    and [Request] payload classes, the class-attribute shortcut of their
    metaclass, the key sort of [sort_request] and the text form [__str__].

    Python values are modelled by the inductive [pyval]; a [dict] is an
    association list in insertion order; the id generators live in a heap of
    iterator objects addressed by location, so that the generator shared by
    all requests and a generator handed in by a caller may alias. *)

From Stdlib Require Import ZArith String Ascii List Lia Permutation.
From Stdlib Require Import DecimalString DecimalZ DecimalPos DecimalNat DecimalFacts.
From stdpp Require Import gmap strings list sorting.

Import ListNotations.
Set Warnings "-register-all".
Local Open Scope Z_scope.
Local Open Scope list_scope.

(** ** Python values *)

(** Location of an iterator object in the heap. *)
Definition loc := nat.

(** The values that can flow through the builders.  [PTuple] and [PList]
    are distinct types in Python ([isinstance (1, 2) list] is false);
    [PIter] is a reference to an iterator object (an id generator), which is
    also the model's example of an object [json.dumps] cannot encode.
    Floating-point numbers are not modelled. *)
Inductive pyval : Type :=
| PNone
| PBool (b : bool)
| PInt (z : Z)
| PStr (s : string)
| PList (l : list pyval)
| PTuple (l : list pyval)
| PDict (d : list (pyval * pyval))
| PIter (l : loc).

(** A [dict] whose keys are strings, in insertion order: keyword arguments
    and the payload itself. *)
Definition dict := list (string * pyval).

(** Induction over [pyval] that reaches inside lists, tuples and dicts. *)
Section pyval_induction.
Variable P : pyval -> Prop.
Hypothesis HNone : P PNone.
Hypothesis HBool : forall b, P (PBool b).
Hypothesis HInt : forall z, P (PInt z).
Hypothesis HStr : forall s, P (PStr s).
Hypothesis HList : forall l, Forall P l -> P (PList l).
Hypothesis HTuple : forall l, Forall P l -> P (PTuple l).
Hypothesis HDict :
  forall d, Forall (fun kv => P (fst kv) /\ P (snd kv)) d -> P (PDict d).
Hypothesis HIter : forall l, P (PIter l).

Fixpoint pyval_rect_nested (v : pyval) : P v :=
  match v with
  | PNone => HNone
  | PBool b => HBool b
  | PInt z => HInt z
  | PStr s => HStr s
  | PList l =>
      HList l ((fix go (l : list pyval) : Forall P l :=
                  match l with
                  | [] => @List.Forall_nil _ P
                  | x :: r =>
                      @List.Forall_cons _ P x r (pyval_rect_nested x) (go r)
                  end) l)
  | PTuple l =>
      HTuple l ((fix go (l : list pyval) : Forall P l :=
                   match l with
                   | [] => @List.Forall_nil _ P
                   | x :: r =>
                       @List.Forall_cons _ P x r (pyval_rect_nested x) (go r)
                   end) l)
  | PDict d =>
      HDict d ((fix go (d : list (pyval * pyval))
                 : Forall (fun kv => P (fst kv) /\ P (snd kv)) d :=
                  match d with
                  | [] => @List.Forall_nil _ _
                  | (k, x) :: r =>
                      @List.Forall_cons _ _ (k, x) r
                        (conj (pyval_rect_nested k) (pyval_rect_nested x))
                        (go r)
                  end) d)
  | PIter l => HIter l
  end.
End pyval_induction.

(** Python truthiness ([bool(v)]), as used by [if args:], [if kwargs:] and
    [id_generator or self.id_generator]. *)
Definition truthy (v : pyval) : bool :=
  match v with
  | PNone => false
  | PBool b => b
  | PInt z => negb (z =? 0)
  | PStr s => negb (String.eqb s EmptyString)
  | PList l | PTuple l => negb (Nat.eqb (length l) 0)
  | PDict d => negb (Nat.eqb (length d) 0)
  | PIter _ => true
  end.

(** [isinstance(v, dict)] and [isinstance(v, list)]. *)
Definition isinstance_dict (v : pyval) : bool :=
  match v with PDict _ => true | _ => false end.

Definition isinstance_list (v : pyval) : bool :=
  match v with PList _ => true | _ => false end.

(** ** String-keyed dicts *)

(** [k in d] *)
Fixpoint dict_contains (k : string) (d : dict) : bool :=
  match d with
  | [] => false
  | (k', _) :: r => String.eqb k k' || dict_contains k r
  end.

(** [d.get(k)] *)
Fixpoint dict_get (k : string) (d : dict) : option pyval :=
  match d with
  | [] => None
  | (k', v) :: r => if String.eqb k k' then Some v else dict_get k r
  end.

(** [d[k] = v]: an existing key keeps its position, a new key goes last. *)
Fixpoint dict_set (k : string) (v : pyval) (d : dict) : dict :=
  match d with
  | [] => [(k, v)]
  | (k', v') :: r =>
      if String.eqb k k' then (k', v) :: r else (k', v') :: dict_set k v r
  end.

(** [d.update(kw)] for keyword entries [kw]: the entries of [kw] are set one after the other. *)
Definition dict_update (d : dict) (kw : dict) : dict :=
  fold_left (fun acc kv => dict_set (fst kv) (snd kv) acc) kw d.

(** [del d[k]] for a key that may be absent. *)
Definition dict_remove (k : string) (d : dict) : dict :=
  List.filter (fun kv => negb (String.eqb k (fst kv))) d.

(** [d.pop(k, default)]: the value removed and the dict that is left. *)
Definition dict_pop (k : string) (default : pyval) (d : dict) : pyval * dict :=
  (match dict_get k d with Some v => v | None => default end, dict_remove k d).

Definition dict_keys (d : dict) : list string := map fst d.

(** A keyword dict seen as a value (when it is appended to [params_list]
    or passed to [json.dumps]). *)
Definition as_value (d : dict) : pyval :=
  PDict (map (fun kv => (PStr (fst kv), snd kv)) d).

(** ** Exceptions, the heap of generators and the builder monad *)

Inductive exn : Type := StopIteration | TypeError | ValueError.

Inductive result (A : Type) : Type :=
| Ok (a : A)
| Raise (e : exn).
Arguments Ok {A} a.
Arguments Raise {A} e.

(** An iterator object: the sequence it produces and the cursor into it.
    [produce n = None] means the iterator is exhausted from position [n]. *)
Record generator : Type := mkGenerator {
  produce : nat -> option pyval;
  cursor : nat
}.

(** The mutable state a build can touch: the iterator objects, and the
    class attribute [Request.id_generator] referring to one of them. *)
Record world : Type := mkWorld {
  heap : gmap loc generator;
  Request_id_generator : loc
}.

Definition M (A : Type) : Type := world -> result A * world.

Definition ret {A} (a : A) : M A := fun w => (Ok a, w).

Definition raise {A} (e : exn) : M A := fun w => (Raise e, w).

Definition bind {A B} (m : M A) (k : A -> M B) : M B :=
  fun w =>
    match m w with
    | (Ok a, w') => k a w'
    | (Raise e, w') => (Raise e, w')
    end.

Notation "x <- m ;; k" := (bind m (fun x => k))
  (at level 60, m at next level, right associativity).

(** [next(it)] on an iterator object: yields the value under the cursor and
    moves the cursor one position on; an exhausted iterator raises
    [StopIteration] and stays as it is. *)
Definition generator_next (g : generator) : option (pyval * generator) :=
  match produce g (cursor g) with
  | Some v => Some (v, mkGenerator (produce g) (S (cursor g)))
  | None => None
  end.

(** The builtin [next(v)]: anything that is not an iterator raises
    [TypeError]. *)
Definition py_next (v : pyval) : M pyval :=
  fun w =>
    match v with
    | PIter l =>
        match heap w !! l with
        | Some g =>
            match generator_next g with
            | Some (x, g') =>
                (Ok x, mkWorld (<[l := g']> (heap w)) (Request_id_generator w))
            | None => (Raise StopIteration, w)
            end
        | None => (Raise TypeError, w)
        end
    | _ => (Raise TypeError, w)
    end.

(** Modelled from the spec: [id_generators.decimal], which is imported by
    request.py but is not part of the sources at hand.  The spec describes
    it as starting at a given integer (default 1) and yielding strictly
    increasing integers, one per call, with a fixed step (default 1). *)
Definition decimal (start step : Z) : generator :=
  mkGenerator (fun n => Some (PInt (start + step * Z.of_nat n))) 0%nat.

(** The state right after the module is imported: the class body of
    [Request] has run [id_generator = id_generators.decimal()] once. *)
Definition initial_world : world :=
  mkWorld {[ 0%nat := decimal 1 1 ]} 0%nat.

(** ** Notification and Request *)

(** [Notification.__init__(self, method, *args, **kwargs)] *)
Definition Notification__init__
    (self : dict) (method : string) (args : list pyval) (kwargs : dict) : dict :=
  (* Start the basic request *)
  let self := dict_update self [("jsonrpc", PStr "2.0"); ("method", PStr method)]%string in
  (* Merge the positional and keyword arguments into one list. *)
  let params_list : list pyval := [] in
  let params_list :=
    if truthy (PTuple args) then params_list ++ args else params_list in
  let params_list :=
    if truthy (as_value kwargs) then params_list ++ [as_value kwargs]
    else params_list in
  (* Add the params to self. *)
  if truthy (PList params_list) then
    if Nat.eqb (length params_list) 1
       && (isinstance_dict (nth 0 params_list PNone)
           || isinstance_list (nth 0 params_list PNone))
    then dict_update self [("params", nth 0 params_list PNone)]%string
    else dict_update self [("params", PList params_list)]%string
  else self.

(** [a or b] *)
Definition py_or (a b : pyval) : pyval := if truthy a then a else b.

(** [self.id_generator]: the instance has no such attribute of its own, so
    the class attribute [Request.id_generator] is found. *)
Definition self_id_generator : M pyval :=
  fun w => (Ok (PIter (Request_id_generator w)), w).

(** [Request.__init__(self, method, *args, id_generator=None, **kwargs)].
    The pair [idk] is the id and what is left of [kwargs]. *)
Definition Request__init__
    (self : dict) (method : string) (args : list pyval)
    (id_generator : pyval) (kwargs : dict) : M dict :=
  idk <-
    (if dict_contains "request_id" kwargs
     then (* If 'request_id' is passed, use the specified id *)
       ret (dict_pop "request_id" PNone kwargs)
     else (* Get the next id from the generator *)
       default <- self_id_generator ;;
       id_ <- py_next (py_or id_generator default) ;;
       ret (id_, kwargs)) ;;
  (* We call super last, after popping the request_id *)
  let self := Notification__init__ self method args (snd idk) in
  ret (dict_update self [("id", fst idk)]%string).

(** Calling the class: a fresh, empty dict is made and [__init__] fills it.
    The keyword-only parameter [id_generator] of [Request.__init__] defaults
    to [None]. *)
Definition Notification (method : string) (args : list pyval) (kwargs : dict)
  : dict :=
  Notification__init__ [] method args kwargs.

Definition Request (method : string) (args : list pyval)
    (id_generator : pyval) (kwargs : dict) : M dict :=
  Request__init__ [] method args id_generator kwargs.

(** ** The metaclass: attribute-style calls *)

Inductive cls : Type := CNotification | CRequest.

(** [cls(name, *args, **kw)] with the raw keyword dict [kw] of the call:
    for [Request], a keyword [id_generator] binds the keyword-only
    parameter and the rest is [kwargs]. *)
Definition instantiate (c : cls) (method : string) (args : list pyval)
    (kw : dict) : M dict :=
  match c with
  | CNotification => ret (Notification method args kw)
  | CRequest =>
      Request method args
        (match dict_get "id_generator" kw with Some g => g | None => PNone end)
        (dict_remove "id_generator" kw)
  end.

(** What an attribute access on the class evaluates to. *)
Inductive attribute : Type :=
| Handler (c : cls) (name : string)   (* the closure [attr_handler] *)
| ClassValue (v : pyval)              (* a class attribute holding a value *)
| Function (name : string).           (* a method of the class or its bases *)

(** [_RequestClassType.__getattr__(cls, name)] returns [attr_handler]. *)
Definition RequestClassType__getattr__ (c : cls) (name : string) : attribute :=
  Handler c name.

(** [attr_handler] applied to [args] and [kwargs] is [cls(name, *args, **kwargs)]. *)
Definition attr_handler (c : cls) (name : string) (args : list pyval)
    (kw : dict) : M dict :=
  instantiate c name args kw.

(** The non-special attribute names that the base [dict] and the
    metaclass base [type] define. *)
Definition builtin_public_attrs : list string :=
  ["clear"; "copy"; "fromkeys"; "get"; "items"; "keys"; "pop"; "popitem";
   "setdefault"; "update"; "values"; "mro"]%string.

Section ClassNamespace.
(** The attribute names supplied by the interpreter through the bases
    [dict] and [object] and through [type]; the special [__x__] names
    among them vary with the interpreter, so the list is left open. *)
Variable inherited : list string.

Definition str_in (x : string) (l : list string) : bool :=
  existsb (String.eqb x) l.

(** [getattr(cls, name)].  Python calls the metaclass [__getattr__] only
    when the ordinary lookup along the class and its bases finds
    nothing: [Request] itself defines [id_generator] and [__init__],
    [Notification] defines [__init__] and [__str__]. *)
Definition class_defines (c : cls) (name : string) : bool :=
  match c with
  | CRequest => String.eqb name "id_generator"
  | CNotification => false
  end
  || str_in name ["__init__"; "__str__"]%string
  || str_in name inherited.

Definition class_getattr (c : cls) (name : string) (w : world) : attribute :=
  if class_defines c name then
    match c with
    | CRequest =>
        if String.eqb name "id_generator"
        then ClassValue (PIter (Request_id_generator w))
        else Function name
    | CNotification => Function name
    end
  else RequestClassType__getattr__ c name.

(** Calling what the attribute access returned.  No [pyval] is callable,
    so calling a class attribute that holds a value raises [TypeError];
    the methods of [dict] and [type] are not modelled ([None]). *)
Definition call_attribute (a : attribute) (args : list pyval) (kw : dict)
  : option (M dict) :=
  match a with
  | Handler c name => Some (attr_handler c name args kw)
  | ClassValue _ => Some (raise TypeError)
  | Function _ => None
  end.

(** The call [cls.name( *args, **kw)]. *)
Definition attribute_call (c : cls) (name : string) (args : list pyval)
    (kw : dict) (w : world) : option (result dict * world) :=
  match call_attribute (class_getattr c name w) args kw with
  | Some m => Some (m w)
  | None => None
  end.
End ClassNamespace.

(** ** sort_request *)

Definition sort_order : list string :=
  ["jsonrpc"; "method"; "params"; "id"]%string.

(** [l.index(x)]; [None] stands for the [ValueError] of a missing item. *)
Fixpoint list_index (x : string) (l : list string) : option nat :=
  match l with
  | [] => None
  | y :: r =>
      if String.eqb x y then Some 0%nat
      else match list_index x r with
           | Some i => Some (S i)
           | None => None
           end
  end.

(** [sorted(items, key=...)] first computes the key of every item, in
    order; a key function that raises aborts the sort. *)
Fixpoint sort_keys (items : dict) : option (list (nat * (string * pyval))) :=
  match items with
  | [] => Some []
  | kv :: r =>
      match list_index (fst kv) sort_order with
      | None => None
      | Some i =>
          match sort_keys r with
          | None => None
          | Some r' => Some ((i, kv) :: r')
          end
      end
  end.

(** [sorted] is stable: items with equal keys keep their order.  Any stable
    sort returns the same list; insertion from the right is one. *)
Fixpoint insert_by_key {A} (x : nat * A) (l : list (nat * A)) : list (nat * A) :=
  match l with
  | [] => [x]
  | y :: r =>
      if Nat.leb (fst x) (fst y) then x :: y :: r
      else y :: insert_by_key x r
  end.

Fixpoint sorted_by_key {A} (l : list (nat * A)) : list (nat * A) :=
  match l with
  | [] => []
  | x :: r => insert_by_key x (sorted_by_key r)
  end.

(** [OrderedDict(sorted(req.items(), key=lambda k: sort_order.index(k[0])))] *)
Definition sort_request (req : dict) : result dict :=
  match sort_keys req with
  | None => Raise ValueError
  | Some decorated => Ok (dict_update [] (map snd (sorted_by_key decorated)))
  end.

(** ** json.dumps

    The JSON text is a list of characters.  A Python [str] is modelled by a
    Rocq [string] whose characters are the code points U+0000 to U+00FF. *)

Definition text := list ascii.

Definition lit (s : string) : text := list_ascii_of_string s.

Definition dquote : ascii := ascii_of_nat 34.
Definition backslash : ascii := ascii_of_nat 92.

Definition hex_digit (n : N) : ascii :=
  nth (N.to_nat n) (lit "0123456789abcdef") "0"%char.

(** One character of [encode_basestring_ascii]: the short escapes of
    [ESCAPE_DCT], the printable ASCII characters as they are, everything
    else as a four-digit lower-case [\u] escape. *)
Definition escape_char (c : ascii) : text :=
  let n := N_of_ascii c in
  if (n =? 92)%N then [backslash; backslash]
  else if (n =? 34)%N then [backslash; dquote]
  else if (n =? 8)%N then [backslash; "b"%char]
  else if (n =? 12)%N then [backslash; "f"%char]
  else if (n =? 10)%N then [backslash; "n"%char]
  else if (n =? 13)%N then [backslash; "r"%char]
  else if (n =? 9)%N then [backslash; "t"%char]
  else if ((32 <=? n) && (n <=? 126))%N then [c]
  else [backslash; "u"%char; "0"%char; "0"%char;
        hex_digit (n / 16); hex_digit (n mod 16)].

Definition encode_basestring_ascii (s : string) : text :=
  dquote :: flat_map escape_char (list_ascii_of_string s) ++ [dquote].

(** [int.__repr__] *)
Definition int_repr (z : Z) : text :=
  list_ascii_of_string (NilZero.string_of_int (Z.to_int z)).

(** The coercion of dict keys in [_iterencode_dict]: a [str] is kept,
    [True], [False], [None] and integers are spelled out, any other key
    raises [TypeError]. *)
Definition encode_key (k : pyval) : result text :=
  match k with
  | PStr s => Ok (encode_basestring_ascii s)
  | PBool true => Ok (dquote :: lit "true" ++ [dquote])
  | PBool false => Ok (dquote :: lit "false" ++ [dquote])
  | PNone => Ok (dquote :: lit "null" ++ [dquote])
  | PInt z => Ok (dquote :: int_repr z ++ [dquote])
  | _ => Raise TypeError
  end.

(** [sep.join(chunks)] *)
Fixpoint join (sep : text) (chunks : list text) : text :=
  match chunks with
  | [] => []
  | [c] => c
  | c :: r => c ++ sep ++ join sep r
  end.

(** The encoder with the default separators [", "] and [": "]. *)
Fixpoint encode (v : pyval) : result text :=
  match v with
  | PNone => Ok (lit "null")
  | PBool true => Ok (lit "true")
  | PBool false => Ok (lit "false")
  | PInt z => Ok (int_repr z)
  | PStr s => Ok (encode_basestring_ascii s)
  | PList l | PTuple l =>
      match
        (fix items (l : list pyval) : result (list text) :=
           match l with
           | [] => Ok []
           | x :: r =>
               match encode x with
               | Raise e => Raise e
               | Ok t =>
                   match items r with
                   | Raise e => Raise e
                   | Ok ts => Ok (t :: ts)
                   end
               end
           end) l
      with
      | Raise e => Raise e
      | Ok ts => Ok (lit "[" ++ join (lit ", ") ts ++ lit "]")
      end
  | PDict d =>
      match
        (fix members (d : list (pyval * pyval)) : result (list text) :=
           match d with
           | [] => Ok []
           | (k, x) :: r =>
               match encode_key k with
               | Raise e => Raise e
               | Ok tk =>
                   match encode x with
                   | Raise e => Raise e
                   | Ok t =>
                       match members r with
                       | Raise e => Raise e
                       | Ok ts => Ok ((tk ++ lit ": " ++ t) :: ts)
                       end
                   end
               end
           end) d
      with
      | Raise e => Raise e
      | Ok ts => Ok (lit "{" ++ join (lit ", ") ts ++ lit "}")
      end
  | PIter _ => Raise TypeError
  end.

Definition json_dumps (v : pyval) : result string :=
  match encode v with
  | Ok t => Ok (string_of_list_ascii t)
  | Raise e => Raise e
  end.

(** [Notification.__str__]: [json.dumps(sort_request(self))] *)
Definition Notification__str__ (self : dict) : result string :=
  match sort_request self with
  | Ok sorted => json_dumps (as_value sorted)
  | Raise e => Raise e
  end.

(** ** json.loads

    The decoder of the [json] module on the same universe of values.
    [None] stands for a [JSONDecodeError], and also for a document whose
    value lies outside the model: a number with a fraction or an exponent
    (a float), [NaN], [Infinity], or a character above U+00FF. *)

Definition is_ws (c : ascii) : bool :=
  let n := N_of_ascii c in
  ((n =? 32) || (n =? 9) || (n =? 10) || (n =? 13))%N.

Fixpoint skip_ws (s : text) : text :=
  match s with
  | c :: r => if is_ws c then skip_ws r else s
  | [] => []
  end.

Definition is_digit (c : ascii) : bool :=
  let n := N_of_ascii c in ((48 <=? n) && (n <=? 57))%N.

Definition hex_value (c : ascii) : option N :=
  let n := N_of_ascii c in
  if ((48 <=? n) && (n <=? 57))%N then Some (n - 48)%N
  else if ((97 <=? n) && (n <=? 102))%N then Some (n - 87)%N
  else if ((65 <=? n) && (n <=? 70))%N then Some (n - 55)%N
  else None.

Definition hex4 (a b c d : ascii) : option N :=
  match hex_value a, hex_value b, hex_value c, hex_value d with
  | Some x, Some y, Some z, Some t => Some (((x * 16 + y) * 16 + z) * 16 + t)%N
  | _, _, _, _ => None
  end.

(** The table [BACKSLASH] of the decoder. *)
Definition unescape (c : ascii) : option ascii :=
  let n := N_of_ascii c in
  if (n =? 34)%N then Some dquote
  else if (n =? 92)%N then Some backslash
  else if (n =? 47)%N then Some "/"%char
  else if (n =? 98)%N then Some (ascii_of_nat 8)
  else if (n =? 102)%N then Some (ascii_of_nat 12)
  else if (n =? 110)%N then Some (ascii_of_nat 10)
  else if (n =? 114)%N then Some (ascii_of_nat 13)
  else if (n =? 116)%N then Some (ascii_of_nat 9)
  else None.

(** [scanstring], entered after the opening quote, in strict mode: a raw
    control character is an error. *)
Fixpoint scanstring (s : text) : option (list ascii * text) :=
  match s with
  | [] => None
  | c :: r =>
      if Ascii.eqb c dquote then Some ([], r)
      else if Ascii.eqb c backslash then
        match r with
        | [] => None
        | e :: r1 =>
            if Ascii.eqb e "u"%char then
              match r1 with
              | h1 :: h2 :: h3 :: h4 :: r2 =>
                  match hex4 h1 h2 h3 h4 with
                  | Some n =>
                      if (n <? 256)%N then
                        match scanstring r2 with
                        | Some (cs, r3) => Some (ascii_of_N n :: cs, r3)
                        | None => None
                        end
                      else None
                  | None => None
                  end
              | _ => None
              end
            else
              match unescape e with
              | Some ch =>
                  match scanstring r1 with
                  | Some (cs, r2) => Some (ch :: cs, r2)
                  | None => None
                  end
              | None => None
              end
        end
      else if (N_of_ascii c <? 32)%N then None
      else
        match scanstring r with
        | Some (cs, r1) => Some (c :: cs, r1)
        | None => None
        end
  end.

Definition digit_of (c : ascii) (d : Decimal.uint) : Decimal.uint :=
  match (N_of_ascii c - 48)%N with
  | 0 => Decimal.D0 d | 1 => Decimal.D1 d | 2 => Decimal.D2 d
  | 3 => Decimal.D3 d | 4 => Decimal.D4 d | 5 => Decimal.D5 d
  | 6 => Decimal.D6 d | 7 => Decimal.D7 d | 8 => Decimal.D8 d
  | _ => Decimal.D9 d
  end%N.

(** The longest run of decimal digits at the head of the text. *)
Fixpoint scan_digits (s : text) : Decimal.uint * text :=
  match s with
  | c :: r =>
      if is_digit c then
        let '(d, r') := scan_digits r in (digit_of c d, r')
      else (Decimal.Nil, s)
  | [] => (Decimal.Nil, [])
  end.

(** The integer part of [NUMBER_RE]: a single [0], or a digit from 1 to 9
    followed by any digits. *)
Definition scan_natural (s : text) : option (Decimal.uint * text) :=
  match s with
  | c :: r =>
      if Ascii.eqb c "0"%char then Some (Decimal.D0 Decimal.Nil, r)
      else if is_digit c then Some (scan_digits s)
      else None
  | [] => None
  end.

(** Whether the text goes on with the fraction (a dot and a digit) or the
    exponent (e or E, an optional sign and a digit) of [NUMBER_RE]: the
    number is then a float. *)
Definition float_follows (s : text) : bool :=
  match s with
  | c :: d :: r =>
      if Ascii.eqb c "."%char then is_digit d
      else if Ascii.eqb c "e"%char || Ascii.eqb c "E"%char then
        is_digit d
        || ((Ascii.eqb d "+"%char || Ascii.eqb d "-"%char)
            && match r with x :: _ => is_digit x | [] => false end)
      else false
  | _ => false
  end.

Definition scan_number (s : text) : option (pyval * text) :=
  match s with
  | c :: r =>
      if Ascii.eqb c "-"%char then
        match scan_natural r with
        | Some (d, r') =>
            if float_follows r' then None
            else Some (PInt (Z.of_int (Decimal.Neg d)), r')
        | None => None
        end
      else
        match scan_natural s with
        | Some (d, r') =>
            if float_follows r' then None
            else Some (PInt (Z.of_int (Decimal.Pos d)), r')
        | None => None
        end
  | [] => None
  end.

(** [s.startswith(p)], returning what follows the prefix. *)
Fixpoint strip_prefix (p s : text) : option text :=
  match p, s with
  | [], _ => Some s
  | a :: p', b :: s' => if Ascii.eqb a b then strip_prefix p' s' else None
  | _ :: _, [] => None
  end.

(** [scan_once], [JSONArray] and [JSONObject].  The recursion of the
    decoder follows the nesting of the document; [fuel] bounds it. *)
Fixpoint scan_once (fuel : nat) (s : text) : option (pyval * text) :=
  match fuel with
  | O => None
  | S fuel =>
      match s with
      | [] => None
      | c :: r =>
          if Ascii.eqb c dquote then
            match scanstring r with
            | Some (cs, r') => Some (PStr (string_of_list_ascii cs), r')
            | None => None
            end
          else if Ascii.eqb c "{"%char then
            match skip_ws r with
            | c' :: r' =>
                if Ascii.eqb c' "}"%char then Some (PDict [], r')
                else
                  match scan_members fuel (c' :: r') with
                  | Some (pairs, r'') =>
                      Some (as_value (dict_update [] pairs), r'')
                  | None => None
                  end
            | [] => None
            end
          else if Ascii.eqb c "["%char then
            match skip_ws r with
            | c' :: r' =>
                if Ascii.eqb c' "]"%char then Some (PList [], r')
                else
                  match scan_elements fuel (c' :: r') with
                  | Some (vs, r'') => Some (PList vs, r'')
                  | None => None
                  end
            | [] => None
            end
          else
            match strip_prefix (lit "null") s with
            | Some r' => Some (PNone, r')
            | None =>
            match strip_prefix (lit "true") s with
            | Some r' => Some (PBool true, r')
            | None =>
            match strip_prefix (lit "false") s with
            | Some r' => Some (PBool false, r')
            | None => scan_number s
            end end end
      end
  end

with scan_elements (fuel : nat) (s : text) : option (list pyval * text) :=
  match fuel with
  | O => None
  | S fuel =>
      match scan_once fuel s with
      | Some (v, r) =>
          match skip_ws r with
          | c :: r' =>
              if Ascii.eqb c "]"%char then Some ([v], r')
              else if Ascii.eqb c ","%char then
                match scan_elements fuel (skip_ws r') with
                | Some (vs, r'') => Some (v :: vs, r'')
                | None => None
                end
              else None
          | [] => None
          end
      | None => None
      end
  end

with scan_members (fuel : nat) (s : text) : option (dict * text) :=
  match fuel with
  | O => None
  | S fuel =>
      match s with
      | c :: r =>
          if Ascii.eqb c dquote then
            match scanstring r with
            | Some (k, r1) =>
                match skip_ws r1 with
                | c1 :: r2 =>
                    if Ascii.eqb c1 ":"%char then
                      match scan_once fuel (skip_ws r2) with
                      | Some (v, r3) =>
                          match skip_ws r3 with
                          | c2 :: r4 =>
                              if Ascii.eqb c2 "}"%char
                              then Some ([(string_of_list_ascii k, v)], r4)
                              else if Ascii.eqb c2 ","%char then
                                match scan_members fuel (skip_ws r4) with
                                | Some (ps, r5) =>
                                    Some ((string_of_list_ascii k, v) :: ps, r5)
                                | None => None
                                end
                              else None
                          | [] => None
                          end
                      | None => None
                      end
                    else None
                | [] => None
                end
            | None => None
            end
          else None
      | [] => None
      end
  end.

(** [json.loads(s)]: leading white space, one value, trailing white space
    and nothing else.  Every level of the recursion consumes at least one
    character for every two units of fuel. *)
Definition json_loads (s : string) : option pyval :=
  let t := skip_ws (list_ascii_of_string s) in
  match scan_once (S (2 * length t)) t with
  | Some (v, r) =>
      match skip_ws r with
      | [] => Some v
      | _ :: _ => None
      end
  | None => None
  end.

(** ** Auxiliary definitions for the statements *)

(** The params-shape algorithm in the words of the specification: the
    positional arguments in call order, then the keyword mapping as one
    trailing element if there is any keyword argument. *)
Definition spec_working_list (args : list pyval) (kwargs : dict) : list pyval :=
  args ++ match kwargs with [] => [] | _ :: _ => [as_value kwargs] end.

(** No [params] for an empty working list, the single element itself when
    it is a list or a dict, the working list otherwise. *)
Definition spec_params (args : list pyval) (kwargs : dict) : option pyval :=
  match spec_working_list args kwargs with
  | [] => None
  | [x] => if isinstance_dict x || isinstance_list x then Some x
           else Some (PList [x])
  | l => Some (PList l)
  end.

Definition optional_entry (k : string) (v : option pyval) : dict :=
  match v with Some x => [(k, x)] | None => [] end.

(** A payload with its keys in the canonical order. *)
Definition payload_of (method : string) (params id : option pyval) : dict :=
  [("jsonrpc", PStr "2.0"); ("method", PStr method)]%string
  ++ optional_entry "params" params ++ optional_entry "id" id.

(** Building one request after the other, each without an explicit id and
    without a generator of its own. *)
Fixpoint build_requests (calls : list (string * list pyval * dict))
  : M (list dict) :=
  match calls with
  | [] => ret []
  | (method, args, kwargs) :: r =>
      p <- Request method args PNone kwargs ;;
      ps <- build_requests r ;;
      ret (p :: ps)
  end.

(** The text of one member of a JSON object. *)
Definition member_text (k : string) (t : text) : text :=
  encode_basestring_ascii k ++ lit ": " ++ t.

(** The text of a payload in the words of the specification: the keys in
    the order [jsonrpc], [method], [params], [id], the last two only when
    present.  [params] and [id] are the texts of the two values. *)
Definition canonical_text (m : string) (params id : option text) : text :=
  lit "{"
  ++ member_text "jsonrpc" (encode_basestring_ascii "2.0")
  ++ lit ", " ++ member_text "method" (encode_basestring_ascii m)
  ++ match params with
     | Some t => lit ", " ++ member_text "params" t
     | None => []
     end
  ++ match id with
     | Some t => lit ", " ++ member_text "id" t
     | None => []
     end
  ++ lit "}".

Definition encode_optional (v : option pyval) : result (option text) :=
  match v with
  | None => Ok None
  | Some x =>
      match encode x with
      | Ok t => Ok (Some t)
      | Raise e => Raise e
      end
  end.

(** Pairwise different strings. *)
Fixpoint distinct (l : list string) : bool :=
  match l with
  | [] => true
  | x :: r => negb (existsb (String.eqb x) r) && distinct r
  end.

(** The key of a dict entry when it is a [str]. *)
Definition str_key (k : pyval) : option string :=
  match k with PStr s => Some s | _ => None end.

(** The values that JSON has a form of its own for: [None], booleans,
    integers, strings, lists, and dicts whose keys are strings.  The keys
    of a dict are pairwise different, as in every Python dict. *)
Fixpoint json_native (v : pyval) : bool :=
  match v with
  | PNone | PBool _ | PInt _ | PStr _ => true
  | PList l => forallb json_native l
  | PTuple _ => false
  | PDict d =>
      forallb (fun kv => let '(k, x) := kv in
                         match k with PStr _ => json_native x | _ => false end)
        d
      && distinct (flat_map (fun kv => match str_key (fst kv) with
                                       | Some s => [s]
                                       | None => []
                                       end) d)
  | PIter _ => false
  end.

(** A bound on the depth of the recursion of the decoder on the text of a
    value. *)
Fixpoint size (v : pyval) : nat :=
  match v with
  | PList l | PTuple l => S (fold_right (fun x n => S (size x + n))%nat 0%nat l)
  | PDict d =>
      S (fold_right (fun kv n => let '(_, x) := kv in S (size x + n))%nat
           0%nat d)
  | _ => 1%nat
  end.

(** What may follow a value inside a document: nothing, a comma, or the
    end of the enclosing array or object. *)
Definition delimited (rest : text) : bool :=
  match rest with
  | [] => true
  | c :: _ => Ascii.eqb c ","%char || Ascii.eqb c "]"%char || Ascii.eqb c "}"%char
  end.

(** The first character of the text of a value is neither white space nor
    a closing bracket. *)
Definition starts_value (t : text) : bool :=
  match t with
  | [] => false
  | c :: _ =>
      negb (is_ws c) && negb (Ascii.eqb c "]"%char)
      && negb (Ascii.eqb c "}"%char)
  end.

(** The position of a key in [sort_order], with which [sort_request]
    decorates the entries. *)
Definition key_index (kv : string * pyval) : nat :=
  match list_index (fst kv) sort_order with Some i => i | None => 0%nat end.

Definition decorate (kv : string * pyval) : nat * (string * pyval) :=
  (key_index kv, kv).

Definition key_le (a b : nat * (string * pyval)) : Prop :=
  (fst a <= fst b)%nat.

(** The state in which the class attribute refers to a decimal counter
    that has already handed out [n] values. *)
Definition default_at (start step : Z) (n : nat) (w : world) : Prop :=
  heap w !! Request_id_generator w
  = Some (mkGenerator (produce (decimal start step)) n).

(** *** Definitions for the round trip through the JSON text *)

(** What [json.loads] makes of the text of a value: tuples come back as
    lists, everything else as it was. *)
Fixpoint json_image (v : pyval) : pyval :=
  match v with
  | PList l | PTuple l => PList (map json_image l)
  | PDict d => PDict (map (fun kv => let '(k, x) := kv in (k, json_image x)) d)
  | _ => v
  end.

(** The values [json.dumps] writes without changing a key: like
    [json_native], with tuples allowed. *)
Fixpoint json_serializable (v : pyval) : bool :=
  match v with
  | PNone | PBool _ | PInt _ | PStr _ => true
  | PList l | PTuple l => forallb json_serializable l
  | PDict d =>
      forallb (fun kv => let '(k, x) := kv in
                         match k with
                         | PStr _ => json_serializable x
                         | _ => false
                         end) d
      && distinct (flat_map (fun kv => match str_key (fst kv) with
                                       | Some s => [s]
                                       | None => []
                                       end) d)
  | PIter _ => false
  end.

Definition encode_items : list pyval -> result (list text) :=
  fix items (l : list pyval) : result (list text) :=
    match l with
    | [] => Ok []
    | x :: r =>
        match encode x with
        | Raise e => Raise e
        | Ok t =>
            match items r with
            | Raise e => Raise e
            | Ok ts => Ok (t :: ts)
            end
        end
    end.

Definition encode_members : list (pyval * pyval) -> result (list text) :=
  fix members (d : list (pyval * pyval)) : result (list text) :=
    match d with
    | [] => Ok []
    | (k, x) :: r =>
        match encode_key k with
        | Raise e => Raise e
        | Ok tk =>
            match encode x with
            | Raise e => Raise e
            | Ok t =>
                match members r with
                | Raise e => Raise e
                | Ok ts => Ok ((tk ++ lit ": " ++ t) :: ts)
                end
            end
        end
    end.

Definition array_text (ts : list text) : text :=
  lit "[" ++ join (lit ", ") ts ++ lit "]".

Definition object_text (ts : list text) : text :=
  lit "{" ++ join (lit ", ") ts ++ lit "}".

Definition size_items (l : list pyval) : nat :=
  fold_right (fun x n => S (size x + n))%nat 0%nat l.

Definition size_members (d : list (pyval * pyval)) : nat :=
  fold_right (fun kv n => let '(_, x) := kv in S (size x + n))%nat 0%nat d.

Definition roundtrips (v : pyval) : Prop :=
  json_serializable v = true ->
  exists t,
    encode v = Ok t
    /\ starts_value t = true
    /\ (size v <= length t)%nat
    /\ forall fuel rest,
        (size v <= fuel)%nat -> delimited rest = true ->
        scan_once fuel (t ++ rest) = Some (json_image v, rest).

(** The entries that [JSONObject] collects from the text of a dict. *)
Definition str_items (d : list (pyval * pyval)) : dict :=
  flat_map (fun kv => match str_key (fst kv) with
                      | Some s => [(s, json_image (snd kv))]
                      | None => []
                      end) d.

Definition starts_quote (t : text) : bool :=
  match t with
  | c :: _ => Ascii.eqb c dquote
  | [] => false
  end.

(** A state with a second iterator that has nothing left to give. *)
Definition world_with_empty_iterator : world :=
  mkWorld (<[1%nat := mkGenerator (fun _ => None) 0%nat]> (heap initial_world))
    0%nat.

(** The payloads that the two classes build for the method [m]. *)
Inductive built (m : string) : dict -> Prop :=
| built_notification args kwargs :
    built m (Notification m args kwargs)
| built_request args g kwargs w p w' :
    Request m args g kwargs w = (Ok p, w') -> built m p.

(** * Properties *)

(** ** The shape of the payloads *)

Lemma Notification_payload (m : string) (args : list pyval) (kwargs : dict) :
  Notification m args kwargs = payload_of m (spec_params args kwargs) None.
Proof.
  unfold Notification, Notification__init__, spec_params, spec_working_list.
  destruct args as [|x [|y args]], kwargs as [|kv kwargs]; cbn;
    rewrite ?app_nil_r; try reflexivity.
  destruct x; reflexivity.
Qed.

Lemma dict_contains_get (k : string) (d : dict) :
  dict_contains k d = match dict_get k d with Some _ => true | None => false end.
Proof.
  induction d as [|[k' v] d IH]; cbn; [reflexivity|].
  destruct (String.eqb k k'); [reflexivity | exact IH].
Qed.

Lemma dict_remove_absent (k : string) (d : dict) :
  dict_contains k d = false -> dict_remove k d = d.
Proof.
  induction d as [|[k' v] d IH]; cbn; [reflexivity|].
  destruct (String.eqb k k'); cbn; [discriminate|].
  intros H. f_equal. exact (IH H).
Qed.

Lemma dict_remove_gone (k : string) (d : dict) :
  dict_contains k (dict_remove k d) = false.
Proof.
  induction d as [|[k' v] d IH]; cbn; [reflexivity|].
  destruct (String.eqb k k') eqn:E; cbn; rewrite ?E; exact IH.
Qed.

Lemma payload_set_id (m : string) (params : option pyval) (v : pyval) :
  dict_update (payload_of m params None) [("id"%string, v)]
  = payload_of m params (Some v).
Proof. destruct params; reflexivity. Qed.

(** A request with [request_id] among its keyword arguments. *)
Lemma Request_explicit (m : string) (args : list pyval) (g : pyval)
    (kwargs : dict) (v : pyval) (w : world) :
  dict_get "request_id" kwargs = Some v ->
  Request m args g kwargs w
  = (Ok (payload_of m (spec_params args (dict_remove "request_id" kwargs))
           (Some v)), w).
Proof.
  intros H. unfold Request, Request__init__, bind, ret, dict_pop.
  rewrite dict_contains_get, H. cbn [fst snd].
  fold (Notification m args (dict_remove "request_id" kwargs)).
  now rewrite Notification_payload, payload_set_id.
Qed.

(** A request that draws its id from the iterator at [l]. *)
Lemma Request_generated (m : string) (args : list pyval) (g : pyval)
    (kwargs : dict) (w : world) (l : loc) (gen gen' : generator) (v : pyval) :
  dict_contains "request_id" kwargs = false ->
  py_or g (PIter (Request_id_generator w)) = PIter l ->
  heap w !! l = Some gen ->
  generator_next gen = Some (v, gen') ->
  Request m args g kwargs w
  = (Ok (payload_of m (spec_params args kwargs) (Some v)),
     mkWorld (<[l := gen']> (heap w)) (Request_id_generator w)).
Proof.
  intros Hk Hor Hl Hn.
  unfold Request, Request__init__, bind, ret, self_id_generator.
  rewrite Hk, Hor. unfold py_next. rewrite Hl, Hn. cbn [fst snd].
  fold (Notification m args kwargs).
  now rewrite Notification_payload, payload_set_id.
Qed.

(** Whatever way the id was found, a request that is built has the shape
    of the notification for the same call plus an [id]. *)
Lemma Request_built (m : string) (args : list pyval) (g : pyval)
    (kwargs : dict) (w w' : world) (p : dict) :
  Request m args g kwargs w = (Ok p, w') ->
  exists v,
    p = payload_of m (spec_params args (dict_remove "request_id" kwargs))
          (Some v).
Proof.
  destruct (dict_get "request_id" kwargs) as [v|] eqn:E.
  - rewrite (Request_explicit _ _ _ _ v w E). intros [= <- _]. now exists v.
  - assert (Hk : dict_contains "request_id" kwargs = false)
      by now rewrite dict_contains_get, E.
    rewrite (dict_remove_absent _ _ Hk).
    unfold Request, Request__init__, bind, ret, self_id_generator.
    rewrite Hk.
    destruct (py_next _ w) as [[id_|e] w1] eqn:En; [|discriminate].
    cbn [fst snd]. fold (Notification m args kwargs).
    rewrite Notification_payload, payload_set_id.
    intros [= <- _]. now exists id_.
Qed.

(** ** sort_request puts the keys in the canonical order *)

Lemma sort_keys_known (d : dict) :
  Forall (fun kv => In (fst kv) sort_order) d ->
  sort_keys d = Some (map decorate d).
Proof.
  induction 1 as [|kv d Hkv _ IH]; cbn [sort_keys map]; [reflexivity|].
  rewrite IH. unfold decorate at 2. unfold key_index.
  destruct (list_index (fst kv) sort_order) eqn:E; [reflexivity|].
  exfalso. cbn in Hkv.
  destruct Hkv as [H|[H|[H|[H|[]]]]]; rewrite <- H in E; discriminate E.
Qed.

Lemma sort_keys_unknown (d : dict) :
  Exists (fun kv => ~ In (fst kv) sort_order) d -> sort_keys d = None.
Proof.
  induction 1 as [kv d Hkv|kv d _ IH]; cbn [sort_keys].
  - destruct kv as [k v]. cbn [fst] in *.
    destruct (list_index k sort_order) eqn:E; [|reflexivity].
    exfalso. apply Hkv. revert E. unfold sort_order. cbn [list_index In].
    repeat match goal with
           | |- context [String.eqb ?a ?b] =>
               destruct (String.eqb_spec a b) as [->|]
           end; intros E; try tauto; discriminate E.
  - rewrite IH. now destruct (list_index (fst kv) sort_order).
Qed.

Lemma insert_by_key_perm {A} (x : nat * A) (l : list (nat * A)) :
  Permutation (insert_by_key x l) (x :: l).
Proof.
  induction l as [|y l IH]; cbn; [reflexivity|].
  destruct (Nat.leb (fst x) (fst y)); [reflexivity|].
  rewrite IH. apply perm_swap.
Qed.

Lemma sorted_by_key_perm {A} (l : list (nat * A)) :
  Permutation (sorted_by_key l) l.
Proof.
  induction l as [|x l IH]; cbn; [reflexivity|].
  now rewrite insert_by_key_perm, IH.
Qed.

Lemma insert_by_key_sorted (x : nat * (string * pyval)) l :
  StronglySorted key_le l -> StronglySorted key_le (insert_by_key x l).
Proof.
  induction 1 as [|y l Hl IH Hy]; cbn.
  - repeat constructor.
  - destruct (Nat.leb_spec (fst x) (fst y)) as [Hle|Hlt].
    + constructor; [now constructor|].
      constructor; [exact Hle|].
      eapply Forall_impl; [exact Hy|].
      unfold key_le. intros; cbn in *; lia.
    + constructor; [exact IH|].
      rewrite insert_by_key_perm.
      constructor; [unfold key_le; lia | exact Hy].
Qed.

Lemma sorted_by_key_sorted (l : list (nat * (string * pyval))) :
  StronglySorted key_le (sorted_by_key l).
Proof.
  induction l as [|x l IH]; cbn; [constructor|].
  now apply insert_by_key_sorted.
Qed.

(** The decorated canonical payload is sorted, and its keys are
    pairwise different. *)
Lemma payload_sorted (m : string) (params id : option pyval) :
  StronglySorted key_le (map decorate (payload_of m params id)).
Proof.
  destruct params, id; cbn; repeat constructor; unfold key_le; cbn; lia.
Qed.

Lemma payload_key_inj (m : string) (params id : option pyval) a b :
  In a (map decorate (payload_of m params id)) ->
  In b (map decorate (payload_of m params id)) ->
  key_le a b -> key_le b a -> a = b.
Proof.
  unfold key_le.
  destruct params, id; cbn; intros Ha Hb;
    repeat (destruct Ha as [<-|Ha]); try contradiction;
    repeat (destruct Hb as [<-|Hb]); try contradiction;
    cbn; intros; try reflexivity; lia.
Qed.

Lemma payload_keys_known (m : string) (params id : option pyval) :
  Forall (fun kv => In (fst kv) sort_order) (payload_of m params id).
Proof.
  destruct params, id; cbn;
    repeat (apply List.Forall_cons; [cbn; tauto|]); apply List.Forall_nil.
Qed.

(** In whatever order the entries of a payload were inserted,
    [sort_request] returns them in the canonical order. *)
Lemma sort_request_payload (m : string) (params id : option pyval) (d : dict) :
  Permutation d (payload_of m params id) ->
  sort_request d = Ok (payload_of m params id).
Proof.
  intros Hp. unfold sort_request.
  rewrite sort_keys_known.
  2:{ eapply Permutation_Forall; [symmetry; exact Hp|].
      apply payload_keys_known. }
  assert (Hperm : Permutation (sorted_by_key (map decorate d))
                    (map decorate (payload_of m params id))).
  { rewrite sorted_by_key_perm. now apply Permutation_map. }
  assert (Heq : sorted_by_key (map decorate d)
                = map decorate (payload_of m params id)).
  { apply (StronglySorted_unique_strong key_le);
      [|apply sorted_by_key_sorted|apply payload_sorted|exact Hperm].
    intros a b Ha Hb. apply (payload_key_inj m params id).
    - apply list_elem_of_In. now rewrite <- Hperm.
    - now apply list_elem_of_In. }
  rewrite Heq, map_map. cbn [snd decorate]. rewrite map_id.
  destruct params, id; reflexivity.
Qed.

Lemma built_payload (m : string) (p : dict) :
  built m p -> exists params id, p = payload_of m params id.
Proof.
  intros [args kwargs|args g kwargs w p' w' H].
  - rewrite Notification_payload. eauto.
  - apply Request_built in H as [v ->]. eauto.
Qed.

(** ** The claims about the builders *)

(** C1.  Params shape resolution: the positional arguments are collected in
    call order, the keyword mapping is appended as one trailing element when
    there is a keyword argument, an empty working list gives a payload
    without [params], and otherwise [params] is the working list (or its
    single element when that is a list or a dict).  A notification built
    from a method name alone has exactly the keys [jsonrpc] and [method]. *)
Theorem C1_params_shape (m : string) (args : list pyval) (kwargs : dict) :
  Notification m args kwargs
  = ([("jsonrpc", PStr "2.0"); ("method", PStr m)]%string
     ++ match args ++ match kwargs with
                      | [] => []
                      | _ :: _ => [as_value kwargs]
                      end
        with
        | [] => []
        | [x] => [("params"%string,
                   if isinstance_dict x || isinstance_list x then x
                   else PList [x])]
        | l => [("params"%string, PList l)]
        end)
  /\ dict_keys (Notification m [] []) = ["jsonrpc"; "method"]%string.
Proof.
  split; [|reflexivity].
  rewrite Notification_payload.
  unfold payload_of, spec_params, spec_working_list.
  rewrite app_nil_r.
  destruct (args ++ _) as [|x [|y l]]; try reflexivity.
  destruct (isinstance_dict x || isinstance_list x); reflexivity.
Qed.

(** C2, as amended.  When the working list holds exactly one element and
    that element is a [list] or a [dict], it becomes [params] itself; a
    keyword mapping that is alone in the working list is such an element.
    Any other single argument, a tuple included, stays wrapped. *)
Theorem C2_unwrap_list_or_dict (m : string) (y : pyval) (k : string)
    (kwargs : dict) :
  dict_get "params" (Notification m [y] [])
  = Some (if isinstance_dict y || isinstance_list y then y else PList [y])
  /\ dict_get "params" (Notification m [] ((k, y) :: kwargs))
     = Some (as_value ((k, y) :: kwargs)).
Proof.
  rewrite !Notification_payload. unfold spec_params, spec_working_list. cbn.
  split; [|reflexivity].
  now destruct (isinstance_dict y || isinstance_list y).
Qed.

(** A tuple is a sequence, and it is not unwrapped. *)
Lemma C2_tuple_stays_wrapped :
  dict_get "params" (Notification "find" [PTuple [PInt 1; PInt 2; PInt 3]] [])
  = Some (PList [PTuple [PInt 1; PInt 2; PInt 3]])
  /\ dict_get "params" (Notification "find" [PTuple [PInt 1; PInt 2; PInt 3]] [])
     <> Some (PTuple [PInt 1; PInt 2; PInt 3]).
Proof. split; [reflexivity | discriminate]. Qed.

(** C4.  An explicit id is used verbatim; no generator is consulted,
    whichever was passed along, and the state of every generator is left
    as it was. *)
Theorem C4_explicit_id (m : string) (args : list pyval) (g : pyval)
    (kwargs : dict) (v : pyval) (w : world) :
  dict_get "request_id" kwargs = Some v ->
  exists p,
    Request m args g kwargs w = (Ok p, w)
    /\ dict_get "id" p = Some v
    /\ p = Notification m args (dict_remove "request_id" kwargs)
           ++ [("id"%string, v)].
Proof.
  intros H. eexists. split; [exact (Request_explicit m args g kwargs v w H)|].
  rewrite Notification_payload.
  destruct (spec_params _ _); split; reflexivity.
Qed.

Lemma C4_explicit_id_witness :
  exists p,
    Request "cat" [] (PIter 7%nat) [("request_id", PInt 5)]%string initial_world
    = (Ok p, initial_world)
    /\ dict_get "id" p = Some (PInt 5)
    /\ p = [("jsonrpc", PStr "2.0"); ("method", PStr "cat")]%string
           ++ [("id"%string, PInt 5)].
Proof.
  apply (C4_explicit_id "cat" [] (PIter 7%nat) [("request_id", PInt 5)]%string).
  reflexivity.
Defined.

(** C5.  A notification never has an [id]; a request that is built always
    has one, and without it the request is the notification built from
    the same call. *)
Theorem C5_id_distinguishes :
  (forall m args kwargs, dict_get "id" (Notification m args kwargs) = None)
  /\ (forall m args g kwargs w p w',
        Request m args g kwargs w = (Ok p, w') ->
        dict_contains "id" p = true
        /\ dict_remove "id" p
           = Notification m args (dict_remove "request_id" kwargs)).
Proof.
  split.
  - intros. rewrite Notification_payload. now destruct (spec_params _ _).
  - intros m args g kwargs w p w' H.
    apply Request_built in H as [v ->].
    rewrite Notification_payload. now destruct (spec_params _ _).
Qed.

Lemma C5_id_distinguishes_witness :
  dict_contains "id"
    [("jsonrpc", PStr "2.0"); ("method", PStr "cat"); ("id", PInt 1)]%string
  = true
  /\ dict_remove "id"
       [("jsonrpc", PStr "2.0"); ("method", PStr "cat"); ("id", PInt 1)]%string
     = Notification "cat" [] (dict_remove "request_id" []).
Proof.
  apply (proj2 C5_id_distinguishes "cat" [] PNone [] initial_world _
           (mkWorld (<[0%nat := mkGenerator (produce (decimal 1 1)) 1]>
                       (heap initial_world)) 0%nat)).
  reflexivity.
Defined.

(** C6.  A request built without an explicit id takes exactly one value
    from the generator it chose, the caller's if one was passed and the
    class attribute otherwise: that generator's cursor moves one position
    on and every other generator is left as it was.  Building a
    notification leaves the whole state as it was. *)
Theorem C6_generator_frame :
  (forall m args g kwargs w l gen v,
      dict_contains "request_id" kwargs = false ->
      py_or g (PIter (Request_id_generator w)) = PIter l ->
      heap w !! l = Some gen ->
      produce gen (cursor gen) = Some v ->
      exists p w',
        Request m args g kwargs w = (Ok p, w')
        /\ dict_get "id" p = Some v
        /\ heap w' !! l = Some (mkGenerator (produce gen) (S (cursor gen)))
        /\ (forall l', l' <> l -> heap w' !! l' = heap w !! l')
        /\ Request_id_generator w' = Request_id_generator w)
  /\ (forall m args kw w,
        instantiate CNotification m args kw w
        = (Ok (Notification m args kw), w)).
Proof.
  split; [|reflexivity].
  intros m args g kwargs w l gen v Hk Hor Hl Hv.
  assert (Hn : generator_next gen
               = Some (v, mkGenerator (produce gen) (S (cursor gen))))
    by (unfold generator_next; now rewrite Hv).
  do 2 eexists. split; [exact (Request_generated _ _ _ _ _ _ _ _ _ Hk Hor Hl Hn)|].
  cbn [heap Request_id_generator]. repeat split.
  - now destruct (spec_params args kwargs).
  - apply lookup_insert_eq.
  - intros l' Hne. now apply lookup_insert_ne.
Qed.

Lemma C6_generator_frame_witness :
  exists p w',
    Request "cat" [] PNone [] initial_world = (Ok p, w')
    /\ dict_get "id" p = Some (PInt 1)
    /\ heap w' !! 0%nat = Some (mkGenerator (produce (decimal 1 1)) 1)
    /\ (forall l', l' <> 0%nat -> heap w' !! l' = heap initial_world !! l')
    /\ Request_id_generator w' = Request_id_generator initial_world.
Proof.
  apply (proj1 C6_generator_frame "cat" [] PNone [] initial_world 0%nat
           (decimal 1 1) (PInt 1)); reflexivity.
Defined.

(** C10.  Every payload has its keys among [jsonrpc], [method], [params]
    and [id], with [jsonrpc] bound to ["2.0"] and [method] to the method
    name; the reserved keyword [request_id] is taken out of the keyword
    arguments before [params] is built from what remains.  On such a
    payload the sort of [sort_request] succeeds, while a key outside the
    canonical list makes it raise [ValueError]. *)
Theorem C10_payload_keys :
  (forall m p,
      built m p ->
      incl (dict_keys p) sort_order
      /\ dict_get "jsonrpc" p = Some (PStr "2.0")
      /\ dict_get "method" p = Some (PStr m)
      /\ sort_request p = Ok p)
  /\ (forall m args g kwargs w p w',
        Request m args g kwargs w = (Ok p, w') ->
        dict_get "params" p = spec_params args (dict_remove "request_id" kwargs)
        /\ dict_contains "request_id" (dict_remove "request_id" kwargs) = false)
  /\ (forall d k,
        In k (dict_keys d) -> ~ In k sort_order ->
        sort_request d = Raise ValueError).
Proof.
  split; [|split].
  - intros m p H. destruct (built_payload m p H) as (params & id & ->).
    split; [|split; [reflexivity|split; [reflexivity|]]].
    + intros k Hk. destruct params, id; cbn in Hk |- *; tauto.
    + now apply sort_request_payload.
  - intros m args g kwargs w p w' H.
    apply Request_built in H as [v ->]. split; [|apply dict_remove_gone].
    now destruct (spec_params _ _).
  - intros d k Hk Hn. unfold sort_request. rewrite sort_keys_unknown; [reflexivity|].
    apply Exists_exists. unfold dict_keys in Hk.
    apply in_map_iff in Hk as (kv & <- & Hkv).
    exists kv. split; [now apply list_elem_of_In | exact Hn].
Qed.

Lemma C10_payload_keys_witness :
  incl (dict_keys (Notification "cat" [PStr "Mittens"; PInt 5] [])) sort_order
  /\ dict_get "jsonrpc" (Notification "cat" [PStr "Mittens"; PInt 5] [])
     = Some (PStr "2.0")
  /\ dict_get "method" (Notification "cat" [PStr "Mittens"; PInt 5] [])
     = Some (PStr "cat")
  /\ sort_request (Notification "cat" [PStr "Mittens"; PInt 5] [])
     = Ok (Notification "cat" [PStr "Mittens"; PInt 5] []).
Proof.
  apply (proj1 C10_payload_keys "cat"). apply built_notification.
Defined.

(** ** The default generator *)

Lemma build_requests_decimal (start step : Z)
    (calls : list (string * list pyval * dict)) :
  Forall (fun c => dict_contains "request_id" (snd c) = false) calls ->
  forall n w,
    default_at start step n w ->
    exists ps w',
      build_requests calls w = (Ok ps, w')
      /\ default_at start step (n + length calls) w'
      /\ map (dict_get "id") ps
         = map (fun i => Some (PInt (start + step * Z.of_nat i)))
             (seq n (length calls)).
Proof.
  induction 1 as [|[[m args] kwargs] calls Hk _ IH]; intros n w Hw.
  - exists [], w. cbn. rewrite Nat.add_0_r. auto.
  - cbn [snd] in Hk.
    pose proof (Request_generated m args PNone kwargs w
                  (Request_id_generator w) _ _ _ Hk eq_refl Hw eq_refl) as Hr.
    cbn [produce cursor decimal] in Hr.
    set (w1 := mkWorld _ _) in Hr.
    destruct (IH (S n) w1) as (ps & w' & Hb & Hw' & Hids).
    { unfold default_at, w1. cbn. apply lookup_insert_eq. }
    exists (payload_of m (spec_params args kwargs)
              (Some (PInt (start + step * Z.of_nat n))) :: ps), w'.
    split; [|split].
    + cbn [build_requests]. unfold bind at 1. rewrite Hr.
      unfold bind at 1. rewrite Hb. reflexivity.
    + cbn [length]. now replace (n + S (length calls))%nat
        with (S n + length calls)%nat by lia.
    + cbn [map length seq]. rewrite Hids. f_equal.
      now destruct (spec_params args kwargs).
Qed.

(** C3.  Requests built without an explicit id and without a generator of
    their own all draw from the one generator held by the class, a decimal
    counter that starts at 1: built one after the other from the initial
    state, they get the ids 1, 2, 3 and so on. *)
Theorem C3_default_generator (calls : list (string * list pyval * dict)) :
  Forall (fun c => dict_contains "request_id" (snd c) = false) calls ->
  exists ps w',
    build_requests calls initial_world = (Ok ps, w')
    /\ map (dict_get "id") ps
       = map (fun i => Some (PInt (Z.of_nat i))) (seq 1 (length calls)).
Proof.
  intros H.
  destruct (build_requests_decimal 1 1 calls H 0%nat initial_world eq_refl)
    as (ps & w' & Hb & _ & Hids).
  exists ps, w'. split; [exact Hb|].
  rewrite Hids, <- seq_shift, map_map.
  apply map_ext. intros i. do 2 f_equal. lia.
Qed.

Lemma C3_default_generator_witness :
  exists ps w',
    build_requests
      [("cat", [], [("name", PStr "Mittens")]); ("cat", [], [])]%string
      initial_world = (Ok ps, w')
    /\ map (dict_get "id") ps = [Some (PInt 1); Some (PInt 2)].
Proof.
  apply (C3_default_generator
           [("cat", [], [("name", PStr "Mittens")]); ("cat", [], [])]%string).
  repeat constructor.
Defined.

(** ** Attribute-style calls *)

(** C8, as amended.  For a name that neither the class nor its bases
    define, the attribute-style call is the direct call with that name as
    the method: same payload, same effect on the generators.  The names
    that are defined ([id_generator] on [Request], the methods of [dict])
    never reach the metaclass. *)
Theorem C8_attribute_call (inherited : list string) (c : cls) (name : string)
    (args : list pyval) (kw : dict) (w : world) :
  class_defines inherited c name = false ->
  attribute_call inherited c name args kw w
  = Some (instantiate c name args kw w).
Proof.
  intros H. unfold attribute_call, class_getattr. now rewrite H.
Qed.

Lemma C8_attribute_call_witness :
  attribute_call builtin_public_attrs CRequest "cat" [PStr "Mittens"] []
    initial_world
  = Some (instantiate CRequest "cat" [PStr "Mittens"] [] initial_world).
Proof. apply C8_attribute_call. reflexivity. Defined.

(** [Request.id_generator()] finds the class attribute, whose call raises
    [TypeError], where [Request('id_generator')] builds a payload and
    takes an id from the generator. *)
Lemma C8_defined_name_differs :
  attribute_call builtin_public_attrs CRequest "id_generator" [] []
    initial_world
  = Some (Raise TypeError, initial_world)
  /\ fst (instantiate CRequest "id_generator" [] [] initial_world)
     = Ok [("jsonrpc", PStr "2.0"); ("method", PStr "id_generator");
           ("id", PInt 1)]%string
  /\ attribute_call builtin_public_attrs CRequest "id_generator" [] []
       initial_world
     <> Some (instantiate CRequest "id_generator" [] [] initial_world).
Proof.
  split; [reflexivity|]. split; [reflexivity|].
  intros H. injection H as H. discriminate H.
Qed.

(** ** The text of a payload *)

Lemma encode_payload (m : string) (params id : option pyval) :
  encode (as_value (payload_of m params id))
  = match encode_optional params with
    | Raise e => Raise e
    | Ok tp =>
        match encode_optional id with
        | Raise e => Raise e
        | Ok ti => Ok (canonical_text m tp ti)
        end
    end.
Proof.
  destruct params as [x|], id as [v|]; cbn -[encode_basestring_ascii];
    repeat match goal with
           | |- context [encode ?a] => destruct (encode a)
           end; try reflexivity;
    unfold member_text; cbn [join app];
    repeat (rewrite <- app_assoc; cbn [app]); reflexivity.
Qed.

Lemma payload_get_params (m : string) (params id : option pyval) :
  dict_get "params" (payload_of m params id) = params.
Proof. destruct params, id; reflexivity. Qed.

Lemma payload_get_id (m : string) (params id : option pyval) :
  dict_get "id" (payload_of m params id) = id.
Proof. destruct params, id; reflexivity. Qed.

(** C7.  The text of a built payload has its keys in the order [jsonrpc],
    [method], [params], [id], with [params] and [id] only when the payload
    has them, in whatever order the entries were inserted; it exists as
    soon as [json.dumps] can encode the two values. *)
Theorem C7_canonical_key_order (m : string) (p d : dict) :
  built m p ->
  Permutation d p ->
  Notification__str__ d
  = match encode_optional (dict_get "params" p) with
    | Raise e => Raise e
    | Ok tp =>
        match encode_optional (dict_get "id" p) with
        | Raise e => Raise e
        | Ok ti => Ok (string_of_list_ascii (canonical_text m tp ti))
        end
    end.
Proof.
  intros Hb Hp. destruct (built_payload m p Hb) as (params & id & ->).
  unfold Notification__str__, json_dumps.
  rewrite (sort_request_payload m params id d Hp), encode_payload.
  rewrite payload_get_params, payload_get_id.
  destruct (encode_optional params); [|reflexivity].
  destruct (encode_optional id); reflexivity.
Qed.

Lemma C7_canonical_key_order_witness :
  Notification__str__
    [("params", PList [PInt 2; PInt 3]); ("method", PStr "add");
     ("jsonrpc", PStr "2.0")]%string
  = match encode_optional
            (dict_get "params" (Notification "add" [PInt 2; PInt 3] [])) with
    | Raise e => Raise e
    | Ok tp =>
        match encode_optional
                (dict_get "id" (Notification "add" [PInt 2; PInt 3] [])) with
        | Raise e => Raise e
        | Ok ti => Ok (string_of_list_ascii (canonical_text "add" tp ti))
        end
    end.
Proof.
  apply (C7_canonical_key_order "add" (Notification "add" [PInt 2; PInt 3] [])).
  - apply built_notification.
  - exact (Permutation_rev
             [("params", PList [PInt 2; PInt 3]); ("method", PStr "add");
              ("jsonrpc", PStr "2.0")]%string).
Defined.

(** ** The round trip through the JSON text *)

Local Open Scope nat_scope.

Lemma scanstring_escape_char (c : ascii) (tail : text) :
  scanstring (escape_char c ++ tail)
  = match scanstring tail with
    | Some (cs, r) => Some (c :: cs, r)
    | None => None
    end.
Proof.
  destruct c as [[] [] [] [] [] [] [] []]; reflexivity.
Qed.

Lemma scanstring_escaped (cs : list ascii) (rest : text) :
  scanstring (flat_map escape_char cs ++ dquote :: rest) = Some (cs, rest).
Proof.
  induction cs as [|c cs IH]; [reflexivity|].
  cbn [flat_map]. rewrite <- app_assoc, scanstring_escape_char, IH.
  reflexivity.
Qed.

Lemma delimited_inv (rest : text) :
  delimited rest = true ->
  rest = [] \/ exists c r, rest = c :: r
                           /\ (c = ","%char \/ c = "]"%char \/ c = "}"%char).
Proof.
  destruct rest as [|c r]; [now left|]. cbn. intros H. right. exists c, r.
  split; [reflexivity|].
  destruct (Ascii.eqb_spec c ","%char); [tauto|].
  destruct (Ascii.eqb_spec c "]"%char); [tauto|].
  destruct (Ascii.eqb_spec c "}"%char); [tauto|discriminate].
Qed.

Lemma delimited_no_digit (rest : text) :
  delimited rest = true ->
  scan_digits rest = (Decimal.Nil, rest) /\ float_follows rest = false.
Proof.
  intros H. destruct (delimited_inv rest H) as [E|(c & r & E & Hc)]; subst rest.
  - split; reflexivity.
  - destruct Hc as [Hc|[Hc|Hc]]; subst c; (split; [reflexivity|]);
      now destruct r.
Qed.

Lemma scan_digits_uint (u : Decimal.uint) (rest : text) :
  delimited rest = true ->
  scan_digits (list_ascii_of_string (NilEmpty.string_of_uint u) ++ rest)
  = (u, rest).
Proof.
  intros H. induction u; cbn [NilEmpty.string_of_uint list_ascii_of_string app];
    [now apply delimited_no_digit|..];
    cbn [scan_digits]; rewrite IHu; reflexivity.
Qed.

Lemma to_uint_head (p : positive) :
  match Pos.to_uint p with
  | Decimal.Nil | Decimal.D0 _ => False
  | _ => True
  end.
Proof.
  pose proof (DecimalPos.Unsigned.to_of (Pos.to_uint p)) as H.
  rewrite DecimalPos.Unsigned.of_to in H. cbn [N.to_uint] in H.
  pose proof (nzhead_nonzero (Pos.to_uint p)) as Hz.
  unfold Decimal.unorm in H.
  destruct (Decimal.nzhead (Pos.to_uint p)) eqn:E; rewrite H; try exact I.
  - exact (DecimalPos.Unsigned.to_uint_nonzero p H).
  - exact (Hz _ eq_refl).
Qed.

Lemma scan_number_int (z : Z) (rest : text) :
  delimited rest = true ->
  scan_number (int_repr z ++ rest) = Some (PInt z, rest).
Proof.
  intros H. destruct (delimited_no_digit rest H) as [_ Hf].
  unfold int_repr. destruct z as [|p|p]; cbn [Z.to_int NilZero.string_of_int].
  - cbn -[float_follows]. now rewrite Hf.
  - pose proof (to_uint_head p) as Hh. pose proof (DecimalZ.of_to (Z.pos p)) as Hz.
    cbn [Z.to_int] in Hz.
    pose proof (scan_digits_uint (Pos.to_uint p) rest H) as Hd.
    destruct (Pos.to_uint p) eqn:E; try contradiction;
      cbn [NilZero.string_of_uint NilEmpty.string_of_uint list_ascii_of_string app] in *;
      unfold scan_number, scan_natural; cbn [Ascii.eqb Bool.eqb is_digit];
      cbn -[scan_digits Z.of_int float_follows]; rewrite Hd;
      cbn -[Z.of_int float_follows is_digit];
      change (is_digit _) with true; cbn iota; rewrite Hf, Hz; reflexivity.
  - pose proof (to_uint_head p) as Hh. pose proof (DecimalZ.of_to (Z.neg p)) as Hz.
    cbn [Z.to_int] in Hz.
    pose proof (scan_digits_uint (Pos.to_uint p) rest H) as Hd.
    destruct (Pos.to_uint p) eqn:E; try contradiction;
      cbn [NilZero.string_of_uint NilEmpty.string_of_uint list_ascii_of_string app] in *;
      unfold scan_number, scan_natural; cbn [Ascii.eqb Bool.eqb is_digit];
      cbn -[scan_digits Z.of_int float_follows]; rewrite Hd;
      cbn -[Z.of_int float_follows is_digit];
      change (is_digit _) with true; cbn iota; rewrite Hf, Hz; reflexivity.
Qed.

Lemma encode_list (l : list pyval) :
  encode (PList l)
  = match encode_items l with
    | Raise e => Raise e
    | Ok ts => Ok (array_text ts)
    end.
Proof. reflexivity. Qed.

Lemma encode_tuple (l : list pyval) :
  encode (PTuple l)
  = match encode_items l with
    | Raise e => Raise e
    | Ok ts => Ok (array_text ts)
    end.
Proof. reflexivity. Qed.

Lemma encode_dict (d : list (pyval * pyval)) :
  encode (PDict d)
  = match encode_members d with
    | Raise e => Raise e
    | Ok ts => Ok (object_text ts)
    end.
Proof. reflexivity. Qed.

Lemma scan_once_string (f : nat) (r : text) :
  scan_once (S f) (dquote :: r)
  = match scanstring r with
    | Some (cs, r') => Some (PStr (string_of_list_ascii cs), r')
    | None => None
    end.
Proof. reflexivity. Qed.

Lemma scan_once_array (f : nat) (r : text) :
  scan_once (S f) ("["%char :: r)
  = match skip_ws r with
    | c' :: r' =>
        if Ascii.eqb c' "]"%char then Some (PList [], r')
        else
          match scan_elements f (c' :: r') with
          | Some (vs, r'') => Some (PList vs, r'')
          | None => None
          end
    | [] => None
    end.
Proof. reflexivity. Qed.

Lemma scan_once_object (f : nat) (r : text) :
  scan_once (S f) ("{"%char :: r)
  = match skip_ws r with
    | c' :: r' =>
        if Ascii.eqb c' "}"%char then Some (PDict [], r')
        else
          match scan_members f (c' :: r') with
          | Some (pairs, r'') => Some (as_value (dict_update [] pairs), r'')
          | None => None
          end
    | [] => None
    end.
Proof. reflexivity. Qed.

Lemma scan_elements_step (f : nat) (s : text) :
  scan_elements (S f) s
  = match scan_once f s with
    | Some (v, r) =>
        match skip_ws r with
        | c :: r' =>
            if Ascii.eqb c "]"%char then Some ([v], r')
            else if Ascii.eqb c ","%char then
              match scan_elements f (skip_ws r') with
              | Some (vs, r'') => Some (v :: vs, r'')
              | None => None
              end
            else None
        | [] => None
        end
    | None => None
    end.
Proof. reflexivity. Qed.

Lemma scan_members_step (f : nat) (r : text) :
  scan_members (S f) (dquote :: r)
  = match scanstring r with
    | Some (k, r1) =>
        match skip_ws r1 with
        | c1 :: r2 =>
            if Ascii.eqb c1 ":"%char then
              match scan_once f (skip_ws r2) with
              | Some (v, r3) =>
                  match skip_ws r3 with
                  | c2 :: r4 =>
                      if Ascii.eqb c2 "}"%char
                      then Some ([(string_of_list_ascii k, v)], r4)
                      else if Ascii.eqb c2 ","%char then
                        match scan_members f (skip_ws r4) with
                        | Some (ps, r5) =>
                            Some ((string_of_list_ascii k, v) :: ps, r5)
                        | None => None
                        end
                      else None
                  | [] => None
                  end
              | None => None
              end
            else None
        | [] => None
        end
    | None => None
    end.
Proof. reflexivity. Qed.

Lemma starts_value_inv (t : text) :
  starts_value t = true ->
  exists c r, t = c :: r /\ is_ws c = false
              /\ Ascii.eqb c "]"%char = false /\ Ascii.eqb c "}"%char = false.
Proof.
  destruct t as [|c r]; [discriminate|]. cbn [starts_value].
  intros H. exists c, r.
  destruct (is_ws c), (Ascii.eqb c "]"%char), (Ascii.eqb c "}"%char);
    try discriminate; auto.
Qed.

Lemma skip_ws_value (t r : text) :
  starts_value t = true -> skip_ws (t ++ r) = t ++ r.
Proof.
  intros H. destruct (starts_value_inv t H) as (c & t' & -> & Hw & _).
  cbn [app skip_ws]. now rewrite Hw.
Qed.

Lemma starts_value_app (t r : text) :
  starts_value t = true -> starts_value (t ++ r) = true.
Proof. destruct t; [discriminate|]. intros H; exact H. Qed.

Lemma scan_once_number (f : nat) (c : ascii) (r : text) :
  is_digit c || Ascii.eqb c "-"%char = true ->
  scan_once (S f) (c :: r) = scan_number (c :: r).
Proof.
  destruct c as [[] [] [] [] [] [] [] []]; intros H;
    first [discriminate H | reflexivity].
Qed.

Lemma int_repr_head (z : Z) :
  exists c r, int_repr z = c :: r
              /\ is_digit c || Ascii.eqb c "-"%char = true.
Proof.
  unfold int_repr. destruct z as [|p|p]; cbn [Z.to_int NilZero.string_of_int].
  - eexists _, _. split; reflexivity.
  - pose proof (to_uint_head p) as H.
    destruct (Pos.to_uint p); try contradiction;
      eexists _, _; split; reflexivity.
  - eexists _, _. split; reflexivity.
Qed.

Lemma starts_value_number (c : ascii) (r : text) :
  is_digit c || Ascii.eqb c "-"%char = true -> starts_value (c :: r) = true.
Proof.
  destruct c as [[] [] [] [] [] [] [] []]; intros H;
    first [discriminate H | reflexivity].
Qed.

Lemma roundtrips_scalar (v : pyval) :
  match v with
  | PNone | PBool _ | PInt _ | PStr _ => roundtrips v
  | _ => True
  end.
Proof.
  destruct v as [|b|z|s| | | |]; try exact I; intros _.
  - exists (lit "null"). repeat split; [cbn; lia|].
    intros [|f] rest Hf _; [cbn in Hf; lia|reflexivity].
  - exists (lit (if b then "true" else "false")).
    destruct b; (repeat split; [cbn; lia|]);
      intros [|f] rest Hf _; first [cbn in Hf; lia|reflexivity].
  - destruct (int_repr_head z) as (c & r & E & Hc).
    exists (int_repr z). split; [reflexivity|]. rewrite E.
    split; [now apply starts_value_number|]. split; [cbn; lia|].
    intros [|f] rest Hf Hd; [cbn in Hf; lia|].
    cbn [app]. rewrite (scan_once_number f c _ Hc).
    change (c :: r ++ rest) with ((c :: r) ++ rest). rewrite <- E.
    now apply scan_number_int.
  - exists (encode_basestring_ascii s). repeat split; [cbn; lia|].
    intros [|f] rest Hf _; [cbn in Hf; lia|].
    unfold encode_basestring_ascii. cbn [app].
    rewrite scan_once_string, <- app_assoc. cbn [app].
    rewrite scanstring_escaped.
    now rewrite string_of_list_ascii_of_string.
Qed.

Lemma skip_ws_space (r : text) : skip_ws (" "%char :: r) = skip_ws r.
Proof. reflexivity. Qed.

Lemma skip_ws_comma (r : text) : skip_ws (","%char :: r) = ","%char :: r.
Proof. reflexivity. Qed.

Lemma join_cons2 (sep t t' : text) (ts : list text) :
  join sep (t :: t' :: ts) = t ++ sep ++ join sep (t' :: ts).
Proof. reflexivity. Qed.

Lemma join_starts (sep : text) (ts : list text) :
  ts <> [] -> Forall (fun t => starts_value t = true) ts ->
  starts_value (join sep ts) = true.
Proof.
  destruct ts as [|t [|t' ts]]; [congruence|..]; intros _ H;
    inversion H; subst; [assumption|].
  rewrite join_cons2. now apply starts_value_app.
Qed.

Lemma items_roundtrip (l : list pyval) :
  Forall roundtrips l ->
  forallb json_serializable l = true ->
  exists ts,
    encode_items l = Ok ts
    /\ length ts = length l
    /\ Forall (fun t => starts_value t = true) ts
    /\ size_items l <= length (join (lit ", ") ts) + 1
    /\ forall fuel rest,
        l <> [] -> size_items l <= fuel ->
        scan_elements fuel (join (lit ", ") ts ++ "]"%char :: rest)
        = Some (map json_image l, rest).
Proof.
  induction 1 as [|x l Hx Hl IH]; intros Hs.
  - exists []. repeat split; [constructor|cbn; lia|congruence].
  - cbn [forallb] in Hs. apply andb_prop in Hs as [Hsx Hsl].
    destruct (Hx Hsx) as (t & Et & Ht & Hlen & Hscan).
    destruct (IH Hsl) as (ts & Ets & Hn & Hts & Hsz & Hscans).
    exists (t :: ts). cbn [encode_items]. fold encode_items. rewrite Et, Ets.
    split; [reflexivity|]. split; [cbn; now rewrite Hn|].
    split; [now constructor|].
    destruct l as [|x' l].
    + destruct ts; [|discriminate Hn]. cbn [join size_items fold_right].
      split; [cbn; lia|].
      intros [|f] rest _ Hf; unfold size_items in Hf; cbn [fold_right] in Hf;
        [lia|].
      rewrite scan_elements_step, Hscan by (auto; lia).
      reflexivity.
    + destruct ts as [|t' ts]; [discriminate Hn|].
      rewrite join_cons2.
      change (size_items (x :: x' :: l)) with (S (size x + size_items (x' :: l))).
      split; [rewrite !length_app; change (length (lit ", ")) with 2; lia|].
      intros [|f] rest _ Hf; [lia|].
      rewrite scan_elements_step, <- !app_assoc.
      rewrite Hscan by (auto; lia).
      cbn [lit list_ascii_of_string app].
      rewrite skip_ws_comma. cbn iota.
      change (Ascii.eqb ","%char "]"%char) with false.
      change (Ascii.eqb ","%char ","%char) with true. cbn iota.
      rewrite skip_ws_space.
      change ([","%char; " "%char]) with (lit ", ").
      rewrite skip_ws_value
        by (apply join_starts; [congruence|assumption]).
      rewrite Hscans by (congruence || lia).
      reflexivity.
Qed.

Lemma starts_quote_value (t : text) :
  starts_quote t = true -> starts_value t = true.
Proof.
  destruct t as [|c r]; [discriminate|]. cbn [starts_quote].
  intros H. apply Ascii.eqb_eq in H. now subst c.
Qed.

Lemma starts_quote_inv (t : text) :
  starts_quote t = true -> exists r, t = dquote :: r.
Proof.
  destruct t as [|c r]; [discriminate|]. cbn [starts_quote].
  intros H. apply Ascii.eqb_eq in H. subst c. now exists r.
Qed.

Lemma skip_ws_colon (r : text) : skip_ws (":"%char :: r) = ":"%char :: r.
Proof. reflexivity. Qed.

Lemma join_starts_quote (sep : text) (ts : list text) :
  ts <> [] -> Forall (fun t => starts_quote t = true) ts ->
  starts_quote (join sep ts) = true.
Proof.
  destruct ts as [|t [|t' ts]]; [congruence|..]; intros _ H;
    inversion H; subst; [assumption|].
  rewrite join_cons2. destruct t; [discriminate|assumption].
Qed.

Lemma members_roundtrip (d : list (pyval * pyval)) :
  Forall (fun kv => roundtrips (fst kv) /\ roundtrips (snd kv)) d ->
  forallb (fun kv => let '(k, x) := kv in
                     match k with
                     | PStr _ => json_serializable x
                     | _ => false
                     end) d = true ->
  exists ts,
    encode_members d = Ok ts
    /\ length ts = length d
    /\ Forall (fun t => starts_quote t = true) ts
    /\ size_members d <= length (join (lit ", ") ts) + 1
    /\ forall fuel rest,
        d <> [] -> size_members d <= fuel ->
        scan_members fuel (join (lit ", ") ts ++ "}"%char :: rest)
        = Some (str_items d, rest).
Proof.
  induction 1 as [|[k x] d [_ Hx] Hd IH]; intros Hs.
  - exists []. repeat split; [constructor|cbn; lia|congruence].
  - cbn [forallb] in Hs. apply andb_prop in Hs as [Hsx Hsd].
    destruct k as [| | |s| | | |]; try discriminate Hsx.
    cbn [snd] in Hx.
    destruct (Hx Hsx) as (t & Et & Ht & Hlen & Hscan).
    destruct (IH Hsd) as (ts & Ets & Hn & Hts & Hsz & Hscans).
    exists ((encode_basestring_ascii s ++ lit ": " ++ t) :: ts).
    cbn [encode_members encode_key]. fold encode_members. rewrite Et, Ets.
    split; [reflexivity|]. split; [cbn; now rewrite Hn|].
    split; [now constructor|].
    assert (Hmember : forall f X,
               size x <= f -> delimited X = true ->
               scan_members (S f)
                 ((encode_basestring_ascii s ++ lit ": " ++ t) ++ X)
               = match skip_ws X with
                 | c2 :: r4 =>
                     if Ascii.eqb c2 "}"%char
                     then Some ([(s, json_image x)], r4)
                     else if Ascii.eqb c2 ","%char then
                       match scan_members f (skip_ws r4) with
                       | Some (ps, r5) => Some ((s, json_image x) :: ps, r5)
                       | None => None
                       end
                     else None
                 | [] => None
                 end).
    { intros f X Hf HX. unfold encode_basestring_ascii.
      cbn [app]. rewrite <- !app_assoc. cbn [app lit list_ascii_of_string].
      rewrite scan_members_step, scanstring_escaped, skip_ws_colon. cbn iota.
      change (Ascii.eqb ":"%char ":"%char) with true. cbn iota.
      rewrite skip_ws_space, (skip_ws_value t X Ht), (Hscan f X Hf HX).
      now rewrite string_of_list_ascii_of_string. }
    destruct d as [|kv' d].
    + destruct ts; [|discriminate Hn]. cbn [join].
      split; [unfold size_members; cbn [fold_right];
              rewrite !length_app; change (length (lit ": ")) with 2; lia|].
      intros [|f] rest _ Hf; unfold size_members in Hf; cbn [fold_right] in Hf;
        [lia|].
      rewrite Hmember by (auto; lia). reflexivity.
    + destruct ts as [|t' ts]; [discriminate Hn|].
      rewrite join_cons2.
      change (size_members ((PStr s, x) :: kv' :: d))
        with (S (size x + size_members (kv' :: d))).
      split; [rewrite !length_app; change (length (lit ", ")) with 2; lia|].
      intros [|f] rest _ Hf; [lia|].
      rewrite <- app_assoc, Hmember by (auto; lia).
      rewrite <- app_assoc. cbn [lit list_ascii_of_string app].
      rewrite skip_ws_comma. cbn iota.
      change (Ascii.eqb ","%char "}"%char) with false.
      change (Ascii.eqb ","%char ","%char) with true. cbn iota.
      rewrite skip_ws_space.
      change ([","%char; " "%char]) with (lit ", ").
      rewrite skip_ws_value
        by (apply starts_quote_value, join_starts_quote;
            [congruence|assumption]).
      rewrite Hscans by (congruence || lia).
      reflexivity.
Qed.

Lemma dict_contains_app (k : string) (d1 d2 : dict) :
  dict_contains k (d1 ++ d2) = dict_contains k d1 || dict_contains k d2.
Proof.
  induction d1 as [|[k' v] d1 IH]; cbn; [reflexivity|].
  now rewrite IH, orb_assoc.
Qed.

Lemma dict_set_fresh (k : string) (v : pyval) (d : dict) :
  dict_contains k d = false -> dict_set k v d = d ++ [(k, v)].
Proof.
  induction d as [|[k' v'] d IH]; cbn; [reflexivity|].
  destruct (String.eqb k k'); cbn; [discriminate|].
  intros H. now rewrite IH.
Qed.

Lemma dict_update_fresh (l acc : dict) :
  distinct (map fst l) = true ->
  (forall k, In k (map fst l) -> dict_contains k acc = false) ->
  dict_update acc l = acc ++ l.
Proof.
  revert acc. induction l as [|[k v] l IH]; intros acc Hd Hacc.
  - cbn. now rewrite app_nil_r.
  - cbn [map fst distinct] in Hd. apply andb_prop in Hd as [Hk Hd].
    change (dict_update acc ((k, v) :: l))
      with (dict_update (dict_set k v acc) l).
    rewrite dict_set_fresh by (apply Hacc; now left).
    rewrite IH, <- app_assoc; [reflexivity|exact Hd|].
    intros k' Hk'. rewrite dict_contains_app, Hacc by (now right).
    cbn. rewrite orb_false_r.
    destruct (String.eqb_spec k' k) as [->|]; [|reflexivity].
    apply negb_true_iff in Hk. exfalso.
    assert (existsb (String.eqb k) (map fst l) = true); [|congruence].
    apply existsb_exists. exists k. split; [exact Hk'|apply String.eqb_refl].
Qed.

Lemma str_items_keys (d : list (pyval * pyval)) :
  map fst (str_items d)
  = flat_map (fun kv => match str_key (fst kv) with
                        | Some s => [s]
                        | None => []
                        end) d.
Proof.
  induction d as [|[k x] d IH]; [reflexivity|].
  unfold str_items in *. cbn [flat_map]. rewrite map_app, IH.
  now destruct k.
Qed.

Lemma str_items_value (d : list (pyval * pyval)) :
  forallb (fun kv => let '(k, x) := kv in
                     match k with
                     | PStr _ => json_serializable x
                     | _ => false
                     end) d = true ->
  as_value (str_items d) = json_image (PDict d).
Proof.
  intros H. unfold as_value. cbn [json_image]. f_equal.
  induction d as [|[k x] d IH]; [reflexivity|].
  cbn [forallb] in H. apply andb_prop in H as [Hk Hd].
  destruct k; try discriminate Hk.
  unfold str_items in *. cbn. now rewrite IH.
Qed.

(** The decoder reads the text of a serializable value back, whatever
    follows it in the document. *)
Lemma roundtrips_all (v : pyval) : roundtrips v.
Proof.
  induction v as [|b|z|s|l IH|l IH|d IH|i] using pyval_rect_nested.
  - exact (roundtrips_scalar PNone).
  - exact (roundtrips_scalar (PBool b)).
  - exact (roundtrips_scalar (PInt z)).
  - exact (roundtrips_scalar (PStr s)).
  - intros Hs. cbn [json_serializable] in Hs.
    destruct (items_roundtrip l IH Hs) as (ts & Ets & Hn & Hts & Hsz & Hscan).
    exists (array_text ts). rewrite encode_list, Ets.
    split; [reflexivity|]. split; [reflexivity|].
    change (size (PList l)) with (S (size_items l)).
    split; [unfold array_text; rewrite !length_app;
            change (length (lit "[")) with 1;
            change (length (lit "]")) with 1; lia|].
    intros [|f] rest Hf _; [lia|].
    unfold array_text.
    change (lit "[") with ["["%char]. change (lit "]") with ["]"%char].
    cbn [app]. rewrite <- app_assoc. cbn [app]. rewrite scan_once_array.
    destruct l as [|x l].
    + destruct ts; [|discriminate Hn]. reflexivity.
    + assert (Hj : starts_value (join (lit ", ") ts ++ "]"%char :: rest) = true).
      { apply starts_value_app, join_starts; [|assumption].
        destruct ts; [discriminate Hn|congruence]. }
      rewrite skip_ws_value
        by (apply join_starts; [destruct ts; [discriminate Hn|congruence]
                               |assumption]).
      destruct (starts_value_inv _ Hj) as (c & r & E & _ & Hc & _).
      rewrite E, Hc, <- E, Hscan by (congruence || lia). reflexivity.
  - intros Hs. cbn [json_serializable] in Hs.
    destruct (items_roundtrip l IH Hs) as (ts & Ets & Hn & Hts & Hsz & Hscan).
    exists (array_text ts). rewrite encode_tuple, Ets.
    split; [reflexivity|]. split; [reflexivity|].
    change (size (PTuple l)) with (S (size_items l)).
    split; [unfold array_text; rewrite !length_app;
            change (length (lit "[")) with 1;
            change (length (lit "]")) with 1; lia|].
    intros [|f] rest Hf _; [lia|].
    unfold array_text.
    change (lit "[") with ["["%char]. change (lit "]") with ["]"%char].
    cbn [app]. rewrite <- app_assoc. cbn [app]. rewrite scan_once_array.
    destruct l as [|x l].
    + destruct ts; [|discriminate Hn]. reflexivity.
    + assert (Hj : starts_value (join (lit ", ") ts ++ "]"%char :: rest) = true).
      { apply starts_value_app, join_starts; [|assumption].
        destruct ts; [discriminate Hn|congruence]. }
      rewrite skip_ws_value
        by (apply join_starts; [destruct ts; [discriminate Hn|congruence]
                               |assumption]).
      destruct (starts_value_inv _ Hj) as (c & r & E & _ & Hc & _).
      rewrite E, Hc, <- E, Hscan by (congruence || lia). reflexivity.
  - intros Hs. cbn [json_serializable] in Hs.
    apply andb_prop in Hs as [Hs Hk].
    destruct (members_roundtrip d IH Hs)
      as (ts & Ets & Hn & Hts & Hsz & Hscan).
    exists (object_text ts). rewrite encode_dict, Ets.
    split; [reflexivity|]. split; [reflexivity|].
    change (size (PDict d)) with (S (size_members d)).
    split; [unfold object_text; rewrite !length_app;
            change (length (lit "{")) with 1;
            change (length (lit "}")) with 1; lia|].
    intros [|f] rest Hf _; [lia|].
    unfold object_text.
    change (lit "{") with ["{"%char]. change (lit "}") with ["}"%char].
    cbn [app]. rewrite <- app_assoc. cbn [app]. rewrite scan_once_object.
    destruct d as [|kv d].
    + destruct ts; [|discriminate Hn]. reflexivity.
    + assert (Hq : starts_quote (join (lit ", ") ts) = true).
      { apply join_starts_quote; [|assumption].
        destruct ts; [discriminate Hn|congruence]. }
      assert (Hj : starts_value (join (lit ", ") ts ++ "}"%char :: rest) = true)
        by now apply starts_value_app, starts_quote_value.
      rewrite skip_ws_value by now apply starts_quote_value.
      destruct (starts_value_inv _ Hj) as (c & r & E & _ & _ & Hc).
      rewrite E, Hc, <- E, Hscan by (congruence || lia).
      rewrite dict_update_fresh;
        [|now rewrite str_items_keys|intros; reflexivity].
      cbn [app]. now rewrite (str_items_value _ Hs).
  - intros Hs. discriminate Hs.
Qed.

(** [json.loads(json.dumps(v))] for a serializable [v]. *)
Lemma loads_dumps (v : pyval) :
  json_serializable v = true ->
  exists s, json_dumps v = Ok s /\ json_loads s = Some (json_image v).
Proof.
  intros Hs. destruct (roundtrips_all v Hs) as (t & Et & Ht & Hlen & Hscan).
  exists (string_of_list_ascii t). unfold json_dumps, json_loads.
  rewrite Et. split; [reflexivity|].
  rewrite list_ascii_of_string_of_list_ascii.
  pose proof (skip_ws_value t [] Ht) as Hw. rewrite app_nil_r in Hw.
  rewrite Hw.
  specialize (Hscan (S (2 * length t)) [] ltac:(lia) eq_refl).
  rewrite app_nil_r in Hscan. now rewrite Hscan.
Qed.

(** ** The payload read back from its text *)

Lemma json_native_serializable (v : pyval) :
  json_native v = true -> json_serializable v = true /\ json_image v = v.
Proof.
  induction v as [|b|z|s|l IH|l IH|d IH|i] using pyval_rect_nested;
    cbn [json_native json_serializable json_image]; intros H;
    try (split; [reflexivity|reflexivity]); try discriminate H.
  - assert (forallb json_serializable l = true /\ map json_image l = l)
      as [H1 H2]; [|now rewrite H1, H2].
    induction IH as [|x l Hx _ IHl]; [now split|].
    cbn [forallb] in H. apply andb_prop in H as [Hx' Hl].
    destruct (Hx Hx') as [E0 E1], (IHl Hl) as [E2 E3].
    cbn [forallb map]. now rewrite E0, E1, E2, E3.
  - apply andb_prop in H as [H Hk]. rewrite Hk, andb_true_r.
    assert (forallb (fun kv => let '(k, x) := kv in
                               match k with
                               | PStr _ => json_serializable x
                               | _ => false
                               end) d = true
            /\ map (fun kv => let '(k, x) := kv in (k, json_image x)) d = d)
      as [H1 H2]; [|now rewrite H1, H2].
    clear Hk. induction IH as [|[k x] d [_ Hx] _ IHd]; [now split|].
    cbn [forallb] in H. apply andb_prop in H as [Hx' Hd].
    destruct k; try discriminate Hx'. cbn [snd] in Hx.
    destruct (Hx Hx') as [E0 E1], (IHd Hd) as [E2 E3].
    cbn -[json_serializable json_image]. now rewrite E0, E1, E2, E3.
Qed.

Lemma payload_serializable (m : string) (params id : option pyval) :
  Forall (fun kv => json_serializable (snd kv) = true) (payload_of m params id) ->
  json_serializable (as_value (payload_of m params id)) = true.
Proof.
  intros H. destruct params as [x|], id as [v|]; cbn in H |- *;
    repeat match goal with
           | H : Forall _ (_ :: _) |- _ => inversion H; subst; clear H
           end; cbn [snd] in *;
    repeat match goal with
           | H : json_serializable _ = true |- _ => rewrite H; clear H
           end; reflexivity.
Qed.

(** Serializing a built payload and parsing the text back gives the
    payload with every tuple turned into a list, when the values are
    serializable. *)
Theorem str_loads_image (m : string) (p : dict) :
  built m p ->
  Forall (fun kv => json_serializable (snd kv) = true) p ->
  exists s,
    Notification__str__ p = Ok s
    /\ json_loads s = Some (json_image (as_value p)).
Proof.
  intros Hb Hs. destruct (built_payload m p Hb) as (params & id & ->).
  unfold Notification__str__.
  rewrite (sort_request_payload m params id _ (Permutation_refl _)).
  apply loads_dumps. now apply payload_serializable.
Qed.

Lemma str_loads_image_witness :
  exists s,
    Notification__str__ (Notification "find" [PTuple [PInt 1; PInt 2; PInt 3]] [])
    = Ok s
    /\ json_loads s
       = Some (json_image
                 (as_value
                    (Notification "find" [PTuple [PInt 1; PInt 2; PInt 3]] []))).
Proof.
  apply (str_loads_image "find").
  - apply built_notification.
  - repeat constructor.
Defined.

Lemma as_value_native (d : dict) :
  Forall (fun kv => json_native (snd kv) = true) d ->
  Forall (fun kv => json_serializable (snd kv) = true) d
  /\ json_image (as_value d) = as_value d.
Proof.
  induction 1 as [|[k x] d Hx _ [IH1 IH2]]; [now split|].
  cbn [snd] in Hx. destruct (json_native_serializable x Hx) as [H1 H2].
  split; [now constructor|].
  unfold as_value in *. cbn [map json_image fst snd] in *.
  injection IH2 as IH2. now rewrite H2, IH2.
Qed.

(** When all values are [None], booleans, integers, strings, lists or
    string-keyed dicts, the text parses back to the payload itself. *)
Theorem str_loads_native (m : string) (p : dict) :
  built m p ->
  Forall (fun kv => json_native (snd kv) = true) p ->
  exists s,
    Notification__str__ p = Ok s /\ json_loads s = Some (as_value p).
Proof.
  intros Hb Hn. destruct (as_value_native p Hn) as [Hs Hi].
  destruct (built_payload m p Hb) as (params & id & ->).
  destruct (loads_dumps _ (payload_serializable m params id Hs))
    as (s & E1 & E2).
  exists s. unfold Notification__str__.
  rewrite (sort_request_payload m params id _ (Permutation_refl _)).
  split; [exact E1|]. now rewrite E2, Hi.
Qed.

Lemma str_loads_native_witness :
  exists s,
    Notification__str__
      (Notification "cat" [] [("name", PStr "Mittens"); ("age", PInt 5)]%string)
    = Ok s
    /\ json_loads s
       = Some (as_value
                 (Notification "cat" []
                    [("name", PStr "Mittens"); ("age", PInt 5)]%string)).
Proof.
  apply (str_loads_native "cat").
  - apply built_notification.
  - repeat constructor.
Defined.

(** ** More on sort_request *)

Lemma list_index_In (x : string) (l : list string) (i : nat) :
  list_index x l = Some i -> In x l.
Proof.
  revert i. induction l as [|y l IH]; intros i; cbn [list_index]; [discriminate|].
  destruct (String.eqb_spec x y) as [->|]; [intros _; now left|].
  destruct (list_index x l); [|discriminate]. intros _. right. eauto.
Qed.

Lemma sort_keys_Some_known (d : dict) (dec : list (nat * (string * pyval))) :
  sort_keys d = Some dec -> Forall (fun kv => In (fst kv) sort_order) d.
Proof.
  revert dec. induction d as [|kv d IH]; intros dec; [constructor|].
  cbn [sort_keys].
  destruct (list_index (fst kv) sort_order) eqn:E; [|discriminate].
  destruct (sort_keys d) eqn:Ed; [|discriminate]. intros _.
  constructor; [exact (list_index_In _ _ _ E)|eauto].
Qed.

(** [sort_request] returns a dict exactly when every key of its argument
    is one of the four canonical keys; otherwise [list.index] raises. *)
Theorem sort_request_ok_iff (d : dict) :
  (exists d', sort_request d = Ok d') <-> incl (dict_keys d) sort_order.
Proof.
  unfold sort_request. split.
  - intros [d' H]. destruct (sort_keys d) eqn:E; [|discriminate].
    apply sort_keys_Some_known in E. intros k Hk.
    apply in_map_iff in Hk as (kv & <- & Hkv).
    rewrite List.Forall_forall in E. now apply E.
  - intros H. rewrite sort_keys_known; [eauto|].
    apply List.Forall_forall. intros kv Hkv. apply H.
    now apply in_map.
Qed.

Lemma distinct_NoDup (l : list string) : distinct l = true <-> NoDup l.
Proof.
  induction l as [|x l IH]; cbn [distinct].
  - split; [constructor|reflexivity].
  - rewrite andb_true_iff, negb_true_iff, IH, NoDup_cons. split.
    + intros [Hx Hl]. split; [|exact Hl]. intros Hin.
      apply list_elem_of_In in Hin.
      assert (existsb (String.eqb x) l = true); [|congruence].
      apply existsb_exists. exists x. split; [exact Hin|apply String.eqb_refl].
    + intros [Hx Hl]. split; [|exact Hl].
      destruct (existsb (String.eqb x) l) eqn:E; [|reflexivity].
      apply existsb_exists in E as (y & Hy & Hxy).
      apply String.eqb_eq in Hxy. subst y. exfalso. apply Hx.
      now apply list_elem_of_In.
Qed.

Lemma dict_update_distinct (l : dict) :
  distinct (dict_keys l) = true -> dict_update [] l = l.
Proof.
  intros H. now rewrite dict_update_fresh.
Qed.

Lemma sorted_undecorate (L : list (nat * (string * pyval))) :
  Forall (fun x => fst x = key_index (snd x)) L ->
  StronglySorted key_le L ->
  StronglySorted (fun a b => key_index a <= key_index b) (map snd L).
Proof.
  intros HL HS. induction HS as [|x L HS IH Hx]; cbn [map]; [constructor|].
  inversion HL as [|? ? Hx0 HL']; subst.
  constructor; [now apply IH|].
  apply List.Forall_forall. intros b Hb.
  apply in_map_iff in Hb as (y & <- & Hy).
  rewrite List.Forall_forall in Hx, HL'.
  pose proof (Hx y Hy) as Hle. unfold key_le in Hle.
  rewrite <- Hx0, <- (HL' y Hy). exact Hle.
Qed.

Lemma sorted_by_key_id (L : list (nat * (string * pyval))) :
  StronglySorted key_le L -> sorted_by_key L = L.
Proof.
  induction 1 as [|x L HS IH Hx]; [reflexivity|].
  cbn [sorted_by_key]. rewrite IH.
  destruct L as [|y L]; [reflexivity|]. cbn [insert_by_key].
  inversion Hx as [|? ? Hxy _]; subst. unfold key_le in Hxy.
  apply Nat.leb_le in Hxy. now rewrite Hxy.
Qed.

(** On a dict with pairwise different keys (as every Python dict has),
    [sort_request] returns the same entries with the keys in the order of
    [sort_order], and sorting the result again changes nothing. *)
Theorem sort_request_sorted (d d' : dict) :
  distinct (dict_keys d) = true ->
  sort_request d = Ok d' ->
  Permutation d d'
  /\ StronglySorted (fun a b => key_index a <= key_index b) d'
  /\ sort_request d' = Ok d'.
Proof.
  intros Hd H. unfold sort_request in H.
  destruct (sort_keys d) as [dec|] eqn:E; [|discriminate].
  pose proof (sort_keys_Some_known d dec E) as Hk.
  rewrite (sort_keys_known d Hk) in E. injection E as <-.
  injection H as <-.
  pose proof (sorted_by_key_perm (map decorate d)) as Hp.
  assert (Hp' : Permutation (map snd (sorted_by_key (map decorate d))) d).
  { rewrite Hp, map_map. cbn [snd decorate]. now rewrite map_id. }
  assert (Hdist : distinct
                    (dict_keys (map snd (sorted_by_key (map decorate d))))
                  = true).
  { apply distinct_NoDup. unfold dict_keys.
    rewrite (Permutation_map fst Hp'). now apply distinct_NoDup. }
  rewrite dict_update_distinct by exact Hdist.
  assert (Hs : StronglySorted (fun a b => key_index a <= key_index b)
                 (map snd (sorted_by_key (map decorate d)))).
  { apply sorted_undecorate; [|apply sorted_by_key_sorted].
    eapply Permutation_Forall; [symmetry; exact Hp|].
    apply List.Forall_forall. intros x Hx.
    apply in_map_iff in Hx as (kv & <- & _). reflexivity. }
  split; [now symmetry|]. split; [exact Hs|].
  set (d' := map snd (sorted_by_key (map decorate d))) in *.
  assert (Hk' : Forall (fun kv => In (fst kv) sort_order) d')
    by (eapply Permutation_Forall; [symmetry; exact Hp'|exact Hk]).
  unfold sort_request. rewrite (sort_keys_known d' Hk').
  rewrite sorted_by_key_id.
  - rewrite map_map. cbn [snd decorate]. rewrite map_id.
    now rewrite dict_update_distinct.
  - clear -Hs. induction Hs as [|x l HS IH Hx]; cbn [map]; constructor;
      [exact IH|].
    apply List.Forall_forall. intros b Hb.
    apply in_map_iff in Hb as (y & <- & Hy).
    rewrite List.Forall_forall in Hx. exact (Hx y Hy).
Qed.

Lemma sort_request_sorted_witness :
  Permutation
    [("id", PInt 2); ("params", PList [PInt 2; PInt 3]);
     ("method", PStr "add"); ("jsonrpc", PStr "2.0")]%string
    [("jsonrpc", PStr "2.0"); ("method", PStr "add");
     ("params", PList [PInt 2; PInt 3]); ("id", PInt 2)]%string
  /\ StronglySorted (fun a b => key_index a <= key_index b)
       [("jsonrpc", PStr "2.0"); ("method", PStr "add");
        ("params", PList [PInt 2; PInt 3]); ("id", PInt 2)]%string
  /\ sort_request
       [("jsonrpc", PStr "2.0"); ("method", PStr "add");
        ("params", PList [PInt 2; PInt 3]); ("id", PInt 2)]%string
     = Ok [("jsonrpc", PStr "2.0"); ("method", PStr "add");
           ("params", PList [PInt 2; PInt 3]); ("id", PInt 2)]%string.
Proof.
  apply (sort_request_sorted
           [("id", PInt 2); ("params", PList [PInt 2; PInt 3]);
            ("method", PStr "add"); ("jsonrpc", PStr "2.0")]%string);
    reflexivity.
Defined.

(** ** Request: the generator at its edges *)

(** When the chosen generator is exhausted, [next] raises [StopIteration]
    out of the constructor: no payload is built and nothing changes. *)
Theorem Request_exhausted (m : string) (args : list pyval) (g : pyval)
    (kwargs : dict) (w : world) (l : loc) (gen : generator) :
  dict_contains "request_id" kwargs = false ->
  py_or g (PIter (Request_id_generator w)) = PIter l ->
  heap w !! l = Some gen ->
  produce gen (cursor gen) = None ->
  Request m args g kwargs w = (Raise StopIteration, w).
Proof.
  intros Hk Hor Hl Hn.
  unfold Request, Request__init__, bind, ret, self_id_generator.
  rewrite Hk, Hor. unfold py_next, generator_next. now rewrite Hl, Hn.
Qed.

Lemma Request_exhausted_witness :
  Request "cat" [] (PIter 1) [] world_with_empty_iterator
  = (Raise StopIteration, world_with_empty_iterator).
Proof.
  apply (Request_exhausted "cat" [] (PIter 1) [] world_with_empty_iterator 1
           (mkGenerator (fun _ => None) 0)); reflexivity.
Defined.

(** A truthy [id_generator] that is not an iterator (a number, a string, a
    non-empty list) makes [next] raise [TypeError]; nothing changes. *)
Theorem Request_not_iterator (m : string) (args : list pyval) (g : pyval)
    (kwargs : dict) (w : world) :
  dict_contains "request_id" kwargs = false ->
  truthy g = true ->
  (forall l, g <> PIter l) ->
  Request m args g kwargs w = (Raise TypeError, w).
Proof.
  intros Hk Ht Hg.
  unfold Request, Request__init__, bind, ret, self_id_generator, py_or.
  rewrite Hk, Ht. destruct g; try reflexivity. now destruct (Hg l).
Qed.

Lemma Request_not_iterator_witness :
  Request "cat" [] (PInt 5) [] initial_world = (Raise TypeError, initial_world).
Proof.
  apply Request_not_iterator; [reflexivity|reflexivity|].
  intros l H. discriminate H.
Defined.

(** A falsy [id_generator] ([None], [0], an empty string, list, tuple or
    dict) is passed over by [or]: the request is built as if none had been
    given.  Passing the generator of the class itself is the same as
    passing none. *)
Theorem Request_default_generator (m : string) (args : list pyval) (g : pyval)
    (kwargs : dict) (w : world) :
  truthy g = false \/ g = PIter (Request_id_generator w) ->
  Request m args g kwargs w = Request m args PNone kwargs w.
Proof.
  intros Hg. unfold Request, Request__init__, bind, ret, self_id_generator.
  destruct (dict_contains "request_id" kwargs); [reflexivity|].
  replace (py_or g (PIter (Request_id_generator w)))
    with (py_or PNone (PIter (Request_id_generator w))); [reflexivity|].
  unfold py_or. destruct Hg as [->| ->]; reflexivity.
Qed.

Lemma Request_default_generator_witness :
  Request "cat" [] (PList []) [] initial_world
  = Request "cat" [] PNone [] initial_world.
Proof. apply Request_default_generator. left. reflexivity. Defined.

Lemma Request_world (m : string) (args : list pyval) (g : pyval)
    (kwargs : dict) (w w' : world) (r : result dict) :
  Request m args g kwargs w = (r, w') ->
  Request_id_generator w' = Request_id_generator w
  /\ forall l', py_or g (PIter (Request_id_generator w)) <> PIter l' ->
                heap w' !! l' = heap w !! l'.
Proof.
  unfold Request, Request__init__, bind, ret, self_id_generator.
  destruct (dict_contains "request_id" kwargs).
  - intros [= _ <-]. now split.
  - unfold py_next.
    destruct (py_or g (PIter (Request_id_generator w))) as [| | | | | | |l];
      try (intros [= _ <-]; now split).
    destruct (heap w !! l) as [gen|] eqn:El; [|intros [= _ <-]; now split].
    destruct (generator_next gen) as [[x gen']|];
      [|intros [= _ <-]; now split].
    intros [= _ <-]. cbn [heap Request_id_generator]. split; [reflexivity|].
    intros l' Hne. apply lookup_insert_ne. congruence.
Qed.

Lemma Request_default_result (m : string) (args : list pyval) (kwargs : dict)
    (w1 w2 : world) :
  Request_id_generator w1 = Request_id_generator w2 ->
  heap w1 !! Request_id_generator w1 = heap w2 !! Request_id_generator w2 ->
  fst (Request m args PNone kwargs w1) = fst (Request m args PNone kwargs w2).
Proof.
  intros Hc Hh.
  unfold Request, Request__init__, bind, ret, self_id_generator, py_or.
  destruct (dict_contains "request_id" kwargs); [reflexivity|].
  cbn [truthy]. unfold py_next. rewrite Hh.
  destruct (heap w2 !! Request_id_generator w2) as [gen|]; [|reflexivity].
  now destruct (generator_next gen) as [[x gen']|].
Qed.

(** A request that draws from a generator of the caller leaves the
    generator of the class alone: the next request without a generator
    gets the id it would have got before. *)
Theorem Request_own_generator_frame (m m2 : string) (args args2 : list pyval)
    (kwargs kwargs2 : dict) (l : loc) (w w' : world) (r : result dict) :
  l <> Request_id_generator w ->
  Request m args (PIter l) kwargs w = (r, w') ->
  fst (Request m2 args2 PNone kwargs2 w')
  = fst (Request m2 args2 PNone kwargs2 w).
Proof.
  intros Hl H. apply Request_world in H as [Hc Hh].
  apply Request_default_result; [exact Hc|]. rewrite Hc.
  apply Hh. unfold py_or. cbn [truthy]. congruence.
Qed.

Lemma Request_own_generator_frame_witness :
  fst (Request "dog" [] PNone []
         (mkWorld (<[1 := mkGenerator (produce (decimal 10 1)) 1]>
                     (<[1 := decimal 10 1]> (heap initial_world))) 0))
  = fst (Request "dog" [] PNone []
           (mkWorld (<[1 := decimal 10 1]> (heap initial_world)) 0)).
Proof.
  apply (Request_own_generator_frame "cat" "dog" [] [] [] [] 1
           (mkWorld (<[1 := decimal 10 1]> (heap initial_world)) 0) _
           (Ok [("jsonrpc", PStr "2.0"); ("method", PStr "cat");
                ("id", PInt 10)]%string)).
  - cbn. lia.
  - reflexivity.
Defined.

(** Requests built one after the other without an id and without a
    generator of their own receive the values of the class generator in
    its order, one each: none is skipped, none is used twice. *)
Theorem build_requests_in_order
    (calls : list (string * list pyval * dict)) :
  Forall (fun c => dict_contains "request_id" (snd c) = false) calls ->
  forall (w : world) (g : generator),
    heap w !! Request_id_generator w = Some g ->
    (forall i, i < length calls -> produce g (cursor g + i) <> None) ->
    exists ps w',
      build_requests calls w = (Ok ps, w')
      /\ map (dict_get "id") ps
         = map (fun i => produce g (cursor g + i)) (seq 0 (length calls))
      /\ Request_id_generator w' = Request_id_generator w
      /\ heap w' !! Request_id_generator w
         = Some (mkGenerator (produce g) (cursor g + length calls)).
Proof.
  induction 1 as [|[[m args] kwargs] calls Hk _ IH]; intros w g Hw Hg.
  - exists [], w. cbn. rewrite Nat.add_0_r. destruct g. auto.
  - cbn [snd] in Hk.
    destruct (produce g (cursor g)) as [v|] eqn:Ev.
    2:{ exfalso. apply (Hg 0); [cbn; lia|]. now rewrite Nat.add_0_r. }
    assert (Hn : generator_next g
                 = Some (v, mkGenerator (produce g) (S (cursor g))))
      by (unfold generator_next; now rewrite Ev).
    pose proof (Request_generated m args PNone kwargs w
                  (Request_id_generator w) _ _ _ Hk eq_refl Hw Hn) as Hr.
    set (g1 := mkGenerator (produce g) (S (cursor g))) in *.
    set (w1 := mkWorld _ _) in Hr.
    destruct (IH w1 g1) as (ps & w' & Hb & Hids & Hc & Hh).
    { unfold w1. cbn. apply lookup_insert_eq. }
    { intros i Hi. cbn [g1 produce cursor].
      replace (S (cursor g) + i) with (cursor g + S i) by lia.
      apply Hg. cbn [length]. lia. }
    exists (payload_of m (spec_params args kwargs) (Some v) :: ps), w'.
    split; [|split; [|split]].
    + cbn [build_requests]. unfold bind at 1. rewrite Hr.
      unfold bind at 1. rewrite Hb. reflexivity.
    + cbn [map length seq]. rewrite Nat.add_0_r, payload_get_id, Ev.
      f_equal. rewrite Hids, <- seq_shift, map_map.
      apply map_ext. intros i. cbn [g1 produce cursor]. f_equal. lia.
    + exact Hc.
    + unfold w1 in Hh. cbn [Request_id_generator] in Hh. rewrite Hh.
      cbn [g1 produce cursor length]. do 2 f_equal. lia.
Qed.

Lemma build_requests_in_order_witness :
  exists ps w',
    build_requests [("cat", [], []); ("dog", [PInt 1], [])]%string initial_world
    = (Ok ps, w')
    /\ map (dict_get "id") ps
       = map (fun i => produce (decimal 1 1) (cursor (decimal 1 1) + i))
           (seq 0 2)
    /\ Request_id_generator w' = Request_id_generator initial_world
    /\ heap w' !! Request_id_generator initial_world
       = Some (mkGenerator (produce (decimal 1 1)) (cursor (decimal 1 1) + 2)).
Proof.
  apply (build_requests_in_order
           [("cat", [], []); ("dog", [PInt 1], [])]%string).
  - repeat constructor.
  - reflexivity.
  - intros i Hi. discriminate.
Defined.

(** ** The params key *)

(** [params] is present exactly when at least one positional or keyword
    argument was passed, whatever its value: a lone empty list still
    gives (empty) [params]. *)
Theorem params_present (m : string) (args : list pyval) (kwargs : dict) :
  dict_contains "params" (Notification m args kwargs)
  = negb (Nat.eqb (length args) 0 && Nat.eqb (length kwargs) 0).
Proof.
  rewrite Notification_payload. unfold spec_params, spec_working_list.
  destruct args as [|x [|y args]], kwargs as [|kv kwargs]; cbn;
    try reflexivity;
    try (now destruct (isinstance_dict x || isinstance_list x));
    now destruct args.
Qed.

(** ** __str__ *)

(** A payload as built has its keys in the canonical order already: its
    text is the plain [json.dumps] of the payload. *)
Theorem str_built (m : string) (p : dict) :
  built m p -> Notification__str__ p = json_dumps (as_value p).
Proof.
  intros Hb. destruct (built_payload m p Hb) as (params & id & ->).
  unfold Notification__str__.
  now rewrite (sort_request_payload m params id _ (Permutation_refl _)).
Qed.

Lemma str_built_witness :
  Notification__str__ (Notification "cat" [PStr "Mittens"; PInt 5] [])
  = json_dumps (as_value (Notification "cat" [PStr "Mittens"; PInt 5] [])).
Proof. apply (str_built "cat"). apply built_notification. Defined.

Lemma dict_set_key (k : string) (v : pyval) (d : dict) :
  In k (dict_keys (dict_set k v d)).
Proof.
  induction d as [|[k' v'] d IH]; cbn; [now left|].
  destruct (String.eqb_spec k k') as [->|]; cbn; [now left|now right].
Qed.

(** The payload is a dict that the caller can change: once a key outside
    the four canonical ones is set, [str] raises [ValueError]. *)
Theorem str_foreign_key (k : string) (v : pyval) (p : dict) :
  ~ In k sort_order ->
  Notification__str__ (dict_set k v p) = Raise ValueError.
Proof.
  intros Hk. unfold Notification__str__, sort_request.
  rewrite sort_keys_unknown; [reflexivity|].
  apply Exists_exists. pose proof (dict_set_key k v p) as Hin.
  unfold dict_keys in Hin. apply in_map_iff in Hin as (kv & <- & Hkv).
  exists kv. split; [now apply list_elem_of_In|exact Hk].
Qed.

Lemma str_foreign_key_witness :
  Notification__str__ (dict_set "extra" PNone (Notification "cat" [] []))
  = Raise ValueError.
Proof.
  apply str_foreign_key. cbn.
  intros [H|[H|[H|[H|[]]]]]; discriminate H.
Defined.
